(** * lib-mysql: the MySQL driver adapter, embedded and verified

    The adapter bridges Go's [database/sql] client (the vendor side) into the
    [database/sql/driver] capability interfaces.  Every method of the adapter
    is a short, synchronous sequence of vendor calls, so the embedding is a
    program tree over the vendor's call signature: the adapter decides which
    call to issue and what to do with the answer, the vendor decides the
    answer and the effect on the process state. *)

From Stdlib Require Import ZArith.
From stdpp Require Import strings list pretty.

Open Scope string_scope.
Open Scope list_scope.

(** ** Go data *)

(** [driver.Value]: the dynamic values a driver may hand over.  A float64 is
    kept as its IEEE bit pattern, a [time.Time] as nanoseconds. *)
Inductive Value :=
| VNil
| VInt64 (n : Z)
| VFloat64 (bits : Z)
| VBool (b : bool)
| VBytes (bs : list Z)
| VString (s : string)
| VTime (nanos : Z).

#[global] Instance Value_eq_dec : EqDecision Value.
Proof. solve_decision. Defined.

(** A Go pointer to a vendor object; [None] is the nil pointer. *)
Definition pointer := option nat.
Definition sql_DB := pointer.
Definition sql_Stmt := pointer.
Definition sql_Tx := pointer.
Definition sql_Rows := pointer.

(** The address of one element of a [[]driver.Value] backing array. *)
Record cell := Cell { cell_array : nat; cell_index : nat }.

#[global] Instance cell_eq_dec : EqDecision cell.
Proof. solve_decision. Defined.

(** A slice header over such an array, as [dest []driver.Value] is passed. *)
Record slice := Slice { s_array : nat; s_off : nat; s_len : nat }.

(** [&dest[i]] *)
Definition elem_addr (dest : slice) (i : nat) : cell :=
  Cell (s_array dest) (s_off dest + i).

(** [any]: what crosses into the vendor's variadic parameters, either a value
    boxed as it is or a [*driver.Value]. *)
Inductive any :=
| AnyValue (v : Value)
| AnyPtr (p : cell).

#[global] Instance any_eq_dec : EqDecision any.
Proof. solve_decision. Defined.

(** [context.Context]: the background context or one supplied by a caller. *)
Inductive Context :=
| Background
| CallerCtx (id : nat).

#[global] Instance Context_eq_dec : EqDecision Context.
Proof. solve_decision. Defined.

(** Go errors: a plain error, or [fmt.Errorf(prefix + "%w", cause)]. *)
Inductive error :=
| errors_New (msg : string)
| fmt_Errorf_w (prefix : string) (cause : error).

#[global] Instance error_eq_dec : EqDecision error.
Proof. solve_decision. Defined.

Fixpoint Error (e : error) : string :=
  match e with
  | errors_New msg => msg
  | fmt_Errorf_w prefix cause => prefix +:+ Error cause
  end.

Definition Unwrap (e : error) : option error :=
  match e with
  | errors_New _ => None
  | fmt_Errorf_w _ cause => Some cause
  end.

(** [errors.Is]: the target is met somewhere along the unwrap chain. *)
Fixpoint errors_Is (e target : error) : bool :=
  bool_decide (e = target) ||
  match e with
  | errors_New _ => false
  | fmt_Errorf_w _ cause => errors_Is cause target
  end.

Definition io_EOF : error := errors_New "EOF".

Record sql_Result := { LastInsertId : Z; RowsAffected : Z }.

#[global] Instance sql_Result_eq_dec : EqDecision sql_Result.
Proof. solve_decision. Defined.

Record sql_TxOptions := { Isolation : nat; ReadOnly : bool }.

#[global] Instance sql_TxOptions_eq_dec : EqDecision sql_TxOptions.
Proof. solve_decision. Defined.

(** ** The vendor's call signature

    The calls of [database/sql] the adapter can reach, each with its Go
    result tuple.  [Rows_Next] belongs to the signature of [*sql.Rows]
    although no adapter method issues it. *)
Inductive vendor_call :=
| sql_Open (driverName dataSourceName : string)
| DB_PingContext (db : sql_DB) (ctx : Context)
| DB_Close (db : sql_DB)
| DB_PrepareContext (db : sql_DB) (ctx : Context) (query : string)
| DB_BeginTx (db : sql_DB) (ctx : Context) (opts : option sql_TxOptions)
| Stmt_Close (stmt : sql_Stmt)
| Stmt_ExecContext (stmt : sql_Stmt) (ctx : Context) (args : list any)
| Stmt_QueryContext (stmt : sql_Stmt) (ctx : Context) (args : list any)
| Tx_Commit (tx : sql_Tx)
| Tx_Rollback (tx : sql_Tx)
| Rows_Columns (rows : sql_Rows)
| Rows_Close (rows : sql_Rows)
| Rows_Next (rows : sql_Rows)
| Rows_Scan (rows : sql_Rows) (dest : list any).

#[global] Instance vendor_call_eq_dec : EqDecision vendor_call.
Proof. solve_decision. Defined.

Definition resp (c : vendor_call) : Type :=
  match c with
  | sql_Open _ _ => sql_DB * option error
  | DB_PingContext _ _ => option error
  | DB_Close _ => option error
  | DB_PrepareContext _ _ _ => sql_Stmt * option error
  | DB_BeginTx _ _ _ => sql_Tx * option error
  | Stmt_Close _ => option error
  | Stmt_ExecContext _ _ _ => option sql_Result * option error
  | Stmt_QueryContext _ _ _ => sql_Rows * option error
  | Tx_Commit _ => option error
  | Tx_Rollback _ => option error
  | Rows_Columns _ => list string * option error
  | Rows_Close _ => option error
  | Rows_Next _ => bool
  | Rows_Scan _ _ => option error
  end%type.

(** The context a call carries, when it carries one. *)
Definition call_ctx (c : vendor_call) : option Context :=
  match c with
  | DB_PingContext _ ctx | DB_PrepareContext _ ctx _ | DB_BeginTx _ ctx _
  | Stmt_ExecContext _ ctx _ | Stmt_QueryContext _ ctx _ => Some ctx
  | _ => None
  end.

(** The variadic arguments a call carries. *)
Definition call_args (c : vendor_call) : list any :=
  match c with
  | Stmt_ExecContext _ _ args | Stmt_QueryContext _ _ args => args
  | Rows_Scan _ dest => dest
  | _ => []
  end.

(** ** Adapter programs *)

Inductive Prog (R : Type) : Type :=
| Ret (r : R)
| Call (c : vendor_call) (k : resp c -> Prog R).

Arguments Ret {R} r.
Arguments Call {R} c k.

Fixpoint bind {A B : Type} (p : Prog A) (f : A -> Prog B) : Prog B :=
  match p with
  | Ret a => f a
  | Call c k => Call c (fun x => bind (k x) f)
  end.

Definition call (c : vendor_call) : Prog (resp c) := Call c Ret.

#[global] Instance Prog_ret : MRet Prog := @Ret.
#[global] Instance Prog_bind : MBind Prog := fun A B f p => bind p f.

(** ** The adapter *)

Record Connector := { dsn : string }.
Record mysqlConn := { db : sql_DB }.
Record mysqlStmt := { stmt : sql_Stmt }.
Record mysqlTx := { tx : sql_Tx }.
Record mysqlRows := { rows : sql_Rows }.

#[global] Instance mysqlConn_eq_dec : EqDecision mysqlConn.
Proof. solve_decision. Defined.
#[global] Instance mysqlStmt_eq_dec : EqDecision mysqlStmt.
Proof. solve_decision. Defined.
#[global] Instance mysqlTx_eq_dec : EqDecision mysqlTx.
Proof. solve_decision. Defined.
#[global] Instance mysqlRows_eq_dec : EqDecision mysqlRows.
Proof. solve_decision. Defined.

Definition Connect (c : Connector) (ctx : Context)
  : Prog (option mysqlConn * option error) :=
  '(db, err) ← call (sql_Open "mysql" (dsn c));
  match err with
  | Some err => Ret (None, Some (fmt_Errorf_w "failed to open mysql: " err))
  | None =>
      err ← call (DB_PingContext db ctx);
      match err with
      | Some err =>
          _ ← call (DB_Close db);
          Ret (None, Some (fmt_Errorf_w "failed to ping mysql: " err))
      | None => Ret (Some {| db := db |}, None)
      end
  end.

Definition mysqlConn_Prepare (c : mysqlConn) (query : string)
  : Prog (option mysqlStmt * option error) :=
  '(stmt, err) ← call (DB_PrepareContext (db c) Background query);
  match err with
  | Some err => Ret (None, Some err)
  | None => Ret (Some {| stmt := stmt |}, None)
  end.

Definition mysqlConn_Close (c : mysqlConn) : Prog (option error) :=
  call (DB_Close (db c)).

Definition mysqlConn_Begin (c : mysqlConn)
  : Prog (option mysqlTx * option error) :=
  '(tx, err) ← call (DB_BeginTx (db c) Background None);
  match err with
  | Some err => Ret (None, Some err)
  | None => Ret (Some {| tx := tx |}, None)
  end.

Definition mysqlStmt_Close (s : mysqlStmt) : Prog (option error) :=
  call (Stmt_Close (stmt s)).

Definition mysqlStmt_NumInput (s : mysqlStmt) : Z := (-1)%Z.

(** Modelled from the spec: [libsql.ToNamedValues], the value-marshalling
    helper shared by [Exec] and [Query], lives in the companion package
    lib-sql and is not among the sources.  The spec describes it as a pure,
    pass-through transform of the positional value list into the vendor's
    parameter type, type-preserving and without coercion: each value is
    boxed as it is, in its position. *)
Definition ToNamedValues (args : list Value) : list any :=
  AnyValue <$> args.

Definition mysqlStmt_Exec (s : mysqlStmt) (args : list Value)
  : Prog (option sql_Result * option error) :=
  '(result, err) ← call (Stmt_ExecContext (stmt s) Background (ToNamedValues args));
  match err with
  | Some err => Ret (None, Some err)
  | None => Ret (result, None)
  end.

Definition mysqlStmt_Query (s : mysqlStmt) (args : list Value)
  : Prog (option mysqlRows * option error) :=
  '(rows, err) ← call (Stmt_QueryContext (stmt s) Background (ToNamedValues args));
  match err with
  | Some err => Ret (None, Some err)
  | None => Ret (Some {| rows := rows |}, None)
  end.

Definition mysqlTx_Commit (t : mysqlTx) : Prog (option error) :=
  call (Tx_Commit (tx t)).

Definition mysqlTx_Rollback (t : mysqlTx) : Prog (option error) :=
  call (Tx_Rollback (tx t)).

Definition mysqlRows_Columns (r : mysqlRows) : Prog (list string) :=
  '(cols, _) ← call (Rows_Columns (rows r));
  Ret cols.

Definition mysqlRows_Close (r : mysqlRows) : Prog (option error) :=
  call (Rows_Close (rows r)).

(** [make([]any, n)]: [n] nil interface values. *)
Definition make_any (n : nat) : list any := replicate n (AnyValue VNil).

(** The loop of [Next]: [for i := range dest { args[i] = &dest[i] }]. *)
Definition Next_args (dest : slice) : list any :=
  foldl (fun args i => <[i := AnyPtr (elem_addr dest i)]> args)
        (make_any (s_len dest)) (seq 0 (s_len dest)).

Definition mysqlRows_Next (r : mysqlRows) (dest : slice) : Prog (option error) :=
  let args := Next_args dest in
  call (Rows_Scan (rows r) args).

(** ** Running a program against a vendor *)

Definition vendor (W : Type) : Type := forall c : vendor_call, W -> resp c * W.

Section Run.
Context {W : Type} (V : vendor W).

(** The result and the final state. *)
Fixpoint run {R : Type} (p : Prog R) (w : W) : R * W :=
  match p with
  | Ret r => (r, w)
  | Call c k => let '(x, w') := V c w in run (k x) w'
  end.

(** The vendor calls issued, in order. *)
Fixpoint calls {R : Type} (p : Prog R) (w : W) : list vendor_call :=
  match p with
  | Ret _ => []
  | Call c k => let '(x, w') := V c w in c :: calls (k x) w'
  end.

Definition result {R : Type} (p : Prog R) (w : W) : R := fst (run p w).
Definition after {R : Type} (p : Prog R) (w : W) : W := snd (run p w).
End Run.

(** ** The adapter's methods as one family

    The methods of the four adapter types that reach the vendor, each with
    its receiver and arguments. *)
Inductive method :=
| M_Prepare (c : mysqlConn) (query : string)
| M_Begin (c : mysqlConn)
| M_ConnClose (c : mysqlConn)
| M_StmtClose (s : mysqlStmt)
| M_Exec (s : mysqlStmt) (args : list Value)
| M_Query (s : mysqlStmt) (args : list Value)
| M_Commit (t : mysqlTx)
| M_Rollback (t : mysqlTx)
| M_Columns (r : mysqlRows)
| M_RowsClose (r : mysqlRows)
| M_Next (r : mysqlRows) (dest : slice).

Definition outcome (m : method) : Type :=
  match m with
  | M_Prepare _ _ => option mysqlStmt * option error
  | M_Begin _ => option mysqlTx * option error
  | M_Exec _ _ => option sql_Result * option error
  | M_Query _ _ => option mysqlRows * option error
  | M_Columns _ => list string
  | M_ConnClose _ | M_StmtClose _ | M_Commit _ | M_Rollback _
  | M_RowsClose _ | M_Next _ _ => option error
  end%type.

Definition invoke (m : method) : Prog (outcome m) :=
  match m with
  | M_Prepare c query => mysqlConn_Prepare c query
  | M_Begin c => mysqlConn_Begin c
  | M_ConnClose c => mysqlConn_Close c
  | M_StmtClose s => mysqlStmt_Close s
  | M_Exec s args => mysqlStmt_Exec s args
  | M_Query s args => mysqlStmt_Query s args
  | M_Commit t => mysqlTx_Commit t
  | M_Rollback t => mysqlTx_Rollback t
  | M_Columns r => mysqlRows_Columns r
  | M_RowsClose r => mysqlRows_Close r
  | M_Next r dest => mysqlRows_Next r dest
  end.

(** The vendor call on the stored handle that a method stands for. *)
Definition delegate (m : method) : vendor_call :=
  match m with
  | M_Prepare c query => DB_PrepareContext (db c) Background query
  | M_Begin c => DB_BeginTx (db c) Background None
  | M_ConnClose c => DB_Close (db c)
  | M_StmtClose s => Stmt_Close (stmt s)
  | M_Exec s args => Stmt_ExecContext (stmt s) Background (ToNamedValues args)
  | M_Query s args => Stmt_QueryContext (stmt s) Background (ToNamedValues args)
  | M_Commit t => Tx_Commit (tx t)
  | M_Rollback t => Tx_Rollback (tx t)
  | M_Columns r => Rows_Columns (rows r)
  | M_RowsClose r => Rows_Close (rows r)
  | M_Next r dest => Rows_Scan (rows r) (Next_args dest)
  end.

(** What a method makes of the vendor's answer: the handle is wrapped on
    success and dropped on error, the error of [Columns] is dropped, every
    other answer is returned as it came. *)
Definition settle (m : method) : resp (delegate m) -> outcome m :=
  match m return resp (delegate m) -> outcome m with
  | M_Prepare _ _ => fun '(stmt, err) =>
      match err with
      | Some err => (None, Some err)
      | None => (Some {| stmt := stmt |}, None)
      end
  | M_Begin _ => fun '(tx, err) =>
      match err with
      | Some err => (None, Some err)
      | None => (Some {| tx := tx |}, None)
      end
  | M_Exec _ _ => fun '(result, err) =>
      match err with
      | Some err => (None, Some err)
      | None => (result, None)
      end
  | M_Query _ _ => fun '(rows, err) =>
      match err with
      | Some err => (None, Some err)
      | None => (Some {| rows := rows |}, None)
      end
  | M_Columns _ => fun '(cols, _) => cols
  | M_ConnClose _ | M_StmtClose _ | M_Commit _ | M_Rollback _
  | M_RowsClose _ | M_Next _ _ => fun err => err
  end.

Section Histories.
Context {W : Type} (V : vendor W).

(** The vendor calls of a sequence of method calls. *)
Fixpoint history_calls (ms : list method) (w : W) : list vendor_call :=
  match ms with
  | [] => []
  | m :: ms' => calls V (invoke m) w ++ history_calls ms' (after V (invoke m) w)
  end.
End Histories.

(** ** The transaction state machine of the specification *)

Inductive tx_method := TxCommit | TxRollback.

Definition tx_invoke (t : mysqlTx) (m : tx_method) : Prog (option error) :=
  match m with
  | TxCommit => mysqlTx_Commit t
  | TxRollback => mysqlTx_Rollback t
  end.

(** The guard the specification asks for, at one pair of calls: after a
    first call, the second one fails and does not reach the vendor. *)
Definition tx_guarded {W : Type} (V : vendor W) (w : W) (t : mysqlTx)
           (first second : tx_method) : Prop :=
  let w1 := after V (tx_invoke t first) w in
  result V (tx_invoke t second) w1 <> None
  /\ calls V (tx_invoke t second) w1 = [].

(** ** Reading marshalled arguments back *)

Definition unbox (a : any) : option Value :=
  match a with
  | AnyValue v => Some v
  | AnyPtr _ => None
  end.

(** [n] calls of [Next] in a row on one cursor, with their errors. *)
Fixpoint Next_times (r : mysqlRows) (dest : slice) (n : nat) : Prog (list (option error)) :=
  match n with
  | 0 => Ret []
  | S n' => e ← mysqlRows_Next r dest; es ← Next_times r dest n'; Ret (e :: es)
  end.

(** ** The [database/sql] side

    A reference vendor: the documented behaviour of [database/sql] over the
    go-sql-driver, as far as the adapter's calls observe it.  Handles are
    indices into tables of vendor objects.  Go panics on a call through a nil
    or dangling pointer; this vendor answers such a call with [nil_deref]. *)
Module StdSQL.

(** What lies beyond the process: the DSN syntax, the server. *)
Record server := {
  dsn_wellformed : string -> bool;
  accepts : string -> bool;
  ctx_done : nat -> bool;
  compiles : string -> bool;
  exec_outcome : string -> list any -> sql_Result + error;
  query_outcome : string -> list any -> (list string * list (list Value)) + error
}.

Record DBState := { db_dsn : string; db_sessions : nat; db_closed : bool }.
Record StmtState := { st_db : nat; st_query : string; st_closed : bool }.
Record TxState := { tx_db : nat; tx_done : bool }.
Record RowsState := {
  rs_columns : list string;
  rs_pending : list (list Value);
  rs_lastcols : option (list Value);
  rs_closed : bool
}.

Record world := {
  dbs : list DBState;
  stmts : list StmtState;
  txs : list TxState;
  cursors : list RowsState;
  heap : list (list Value)
}.

Definition ErrTxDone : error :=
  errors_New "sql: transaction has already been committed or rolled back".
Definition errDBClosed : error := errors_New "sql: database is closed".
Definition errStmtClosed : error := errors_New "sql: statement is closed".
Definition errRowsClosed : error := errors_New "sql: Rows are closed".
Definition errScanWithoutNext : error :=
  errors_New "sql: Scan called without calling Next".
Definition errNotPointer : error := errors_New "destination not a pointer".
Definition errUnsupportedNil : error :=
  errors_New "unsupported Scan, storing driver.Value type <nil> into type *driver.Value".
Definition quote : string := String (Ascii.ascii_of_nat 34) EmptyString.
Definition errUnknownDriver : error :=
  errors_New "sql: unknown driver (forgotten import?)".
Definition errInvalidDSN : error :=
  errors_New "invalid DSN: missing the slash separating the database name".
Definition errBadConn : error := errors_New "driver: bad connection".
Definition errSyntax : error :=
  errors_New "Error 1064 (42000): You have an error in your SQL syntax".
Definition context_Canceled : error := errors_New "context canceled".
Definition nil_deref : error :=
  errors_New "runtime error: invalid memory address or nil pointer dereference".

Definition errScanArity (want got : nat) : error :=
  errors_New ("sql: expected " +:+ pretty want +:+
              " destination arguments in Scan, not " +:+ pretty got).

Definition set_dbs (w : world) (x : list DBState) : world :=
  {| dbs := x; stmts := stmts w; txs := txs w; cursors := cursors w; heap := heap w |}.
Definition set_stmts (w : world) (x : list StmtState) : world :=
  {| dbs := dbs w; stmts := x; txs := txs w; cursors := cursors w; heap := heap w |}.
Definition set_txs (w : world) (x : list TxState) : world :=
  {| dbs := dbs w; stmts := stmts w; txs := x; cursors := cursors w; heap := heap w |}.
Definition set_cursors (w : world) (x : list RowsState) : world :=
  {| dbs := dbs w; stmts := stmts w; txs := txs w; cursors := x; heap := heap w |}.
Definition set_heap (w : world) (x : list (list Value)) : world :=
  {| dbs := dbs w; stmts := stmts w; txs := txs w; cursors := cursors w; heap := x |}.

(** The object a pointer leads to. *)
Definition deref {A : Type} (tbl : list A) (p : pointer) : option A :=
  match p with
  | Some a => tbl !! a
  | None => None
  end.

(** [*p = v] *)
Definition store (h : list (list Value)) (p : cell) (v : Value) : list (list Value) :=
  match h !! cell_array p with
  | Some arr => <[cell_array p := <[cell_index p := v]> arr]> h
  | None => h
  end.

(** [convertAssign] for the two kinds of destination the adapter's callers
    can build.  Through a [*driver.Value] a non-nil value is assigned as it
    is; a nil source finds no conversion into that pointer type and is
    refused.  A destination that is no pointer is refused as well. *)
Definition convertAssign (d : any) (src : Value) (h : list (list Value))
  : list (list Value) * option error :=
  match d, src with
  | AnyValue _, _ => (h, Some errNotPointer)
  | AnyPtr _, VNil => (h, Some errUnsupportedNil)
  | AnyPtr p, _ => (store h p src, None)
  end.

(** [fmt.Errorf("sql: Scan error on column index %d, name %q: %w", ...)] *)
Definition errScanColumn (i : nat) (names : list string) (e : error) : error :=
  fmt_Errorf_w ("sql: Scan error on column index " +:+ pretty i +:+ ", name " +:+
                quote +:+ default "" (names !! i) +:+ quote +:+ ": ") e.

(** The loop of [Scan]: column [i] into destination [i], left to right,
    stopping at the first conversion that fails. *)
Fixpoint assign_columns (names : list string) (i : nat) (cols : list Value)
         (dest : list any) (h : list (list Value))
  : list (list Value) * option error :=
  match cols, dest with
  | v :: cols', d :: dest' =>
      match convertAssign d v h with
      | (h', None) => assign_columns names (S i) cols' dest' h'
      | (h', Some e) => (h', Some (errScanColumn i names e))
      end
  | _, _ => (h, None)
  end.

Section Calls.
Variable srv : server.

Definition done (ctx : Context) : bool :=
  match ctx with
  | Background => false
  | CallerCtx id => ctx_done srv id
  end.

Definition Open (driverName dataSourceName : string) (w : world)
  : (sql_DB * option error) * world :=
  if negb (bool_decide (driverName = "mysql")) then ((None, Some errUnknownDriver), w)
  else if negb (dsn_wellformed srv dataSourceName) then ((None, Some errInvalidDSN), w)
  else ((Some (length (dbs w)), None),
        set_dbs w (dbs w ++ [{| db_dsn := dataSourceName; db_sessions := 0;
                                db_closed := false |}])).

(** Reaching the server through the pool of [d]: the error, or the pool
    with a session in it. *)
Definition conn (d : DBState) (ctx : Context) : error + DBState :=
  if db_closed d then inl errDBClosed
  else if done ctx then inl context_Canceled
  else if negb (accepts srv (db_dsn d)) then inl errBadConn
  else inr {| db_dsn := db_dsn d; db_sessions := Nat.max 1 (db_sessions d);
              db_closed := false |}.

Definition db_PingContext (p : sql_DB) (ctx : Context) (w : world)
  : option error * world :=
  match p, deref (dbs w) p with
  | Some a, Some d =>
      match conn d ctx with
      | inl e => (Some e, w)
      | inr d' => (None, set_dbs w (<[a := d']> (dbs w)))
      end
  | _, _ => (Some nil_deref, w)
  end.

Definition db_Close (p : sql_DB) (w : world) : option error * world :=
  match p, deref (dbs w) p with
  | Some a, Some d =>
      (None, set_dbs w (<[a := {| db_dsn := db_dsn d; db_sessions := 0;
                                  db_closed := true |}]> (dbs w)))
  | _, _ => (Some nil_deref, w)
  end.

Definition db_PrepareContext (p : sql_DB) (ctx : Context) (query : string) (w : world)
  : (sql_Stmt * option error) * world :=
  match p, deref (dbs w) p with
  | Some a, Some d =>
      match conn d ctx with
      | inl e => ((None, Some e), w)
      | inr d' =>
          let w' := set_dbs w (<[a := d']> (dbs w)) in
          if compiles srv query
          then ((Some (length (stmts w)), None),
                set_stmts w' (stmts w ++ [{| st_db := a; st_query := query;
                                             st_closed := false |}]))
          else ((None, Some errSyntax), w')
      end
  | _, _ => ((None, Some nil_deref), w)
  end.

Definition db_BeginTx (p : sql_DB) (ctx : Context) (opts : option sql_TxOptions)
           (w : world) : (sql_Tx * option error) * world :=
  match p, deref (dbs w) p with
  | Some a, Some d =>
      match conn d ctx with
      | inl e => ((None, Some e), w)
      | inr d' =>
          ((Some (length (txs w)), None),
           set_txs (set_dbs w (<[a := d']> (dbs w)))
                   (txs w ++ [{| tx_db := a; tx_done := false |}]))
      end
  | _, _ => ((None, Some nil_deref), w)
  end.

Definition stmt_Close (p : sql_Stmt) (w : world) : option error * world :=
  match p, deref (stmts w) p with
  | Some a, Some s =>
      (None, set_stmts w (<[a := {| st_db := st_db s; st_query := st_query s;
                                    st_closed := true |}]> (stmts w)))
  | _, _ => (Some nil_deref, w)
  end.

(** What a statement must pass before its query reaches the server. *)
Definition stmt_ready (p : sql_Stmt) (ctx : Context) (w : world)
  : error + (StmtState * world) :=
  match deref (stmts w) p with
  | Some s =>
      if st_closed s then inl errStmtClosed
      else match (dbs w) !! st_db s with
           | Some d =>
               match conn d ctx with
               | inl e => inl e
               | inr d' => inr (s, set_dbs w (<[st_db s := d']> (dbs w)))
               end
           | None => inl nil_deref
           end
  | None => inl nil_deref
  end.

Definition stmt_ExecContext (p : sql_Stmt) (ctx : Context) (args : list any)
           (w : world) : (option sql_Result * option error) * world :=
  match stmt_ready p ctx w with
  | inl e => ((None, Some e), w)
  | inr (s, w') =>
      match exec_outcome srv (st_query s) args with
      | inl res => ((Some res, None), w')
      | inr e => ((None, Some e), w')
      end
  end.

Definition stmt_QueryContext (p : sql_Stmt) (ctx : Context) (args : list any)
           (w : world) : (sql_Rows * option error) * world :=
  match stmt_ready p ctx w with
  | inl e => ((None, Some e), w)
  | inr (s, w') =>
      match query_outcome srv (st_query s) args with
      | inl (cols, rws) =>
          ((Some (length (cursors w)), None),
           set_cursors w' (cursors w ++ [{| rs_columns := cols; rs_pending := rws;
                                            rs_lastcols := None;
                                            rs_closed := false |}]))
      | inr e => ((None, Some e), w')
      end
  end.

(** [Commit] and [Rollback] end a transaction alike. *)
Definition tx_finish (p : sql_Tx) (w : world) : option error * world :=
  match p, deref (txs w) p with
  | Some a, Some t =>
      if tx_done t then (Some ErrTxDone, w)
      else (None, set_txs w (<[a := {| tx_db := tx_db t; tx_done := true |}]> (txs w)))
  | _, _ => (Some nil_deref, w)
  end.

Definition rows_Columns (p : sql_Rows) (w : world) : (list string * option error) * world :=
  match deref (cursors w) p with
  | Some r =>
      if rs_closed r then (([], Some errRowsClosed), w)
      else ((rs_columns r, None), w)
  | None => (([], Some nil_deref), w)
  end.

Definition rows_Close (p : sql_Rows) (w : world) : option error * world :=
  match p, deref (cursors w) p with
  | Some a, Some r =>
      (None, set_cursors w (<[a := {| rs_columns := rs_columns r;
                                      rs_pending := rs_pending r;
                                      rs_lastcols := rs_lastcols r;
                                      rs_closed := true |}]> (cursors w)))
  | _, _ => (Some nil_deref, w)
  end.

(** [Rows.Next]: prepares the next row for [Scan]; at the end of the
    result set it closes the cursor and reports false. *)
Definition rows_Next (p : sql_Rows) (w : world) : bool * world :=
  match p, deref (cursors w) p with
  | Some a, Some r =>
      if rs_closed r then (false, w)
      else match rs_pending r with
           | row :: rest =>
               (true, set_cursors w (<[a := {| rs_columns := rs_columns r;
                                               rs_pending := rest;
                                               rs_lastcols := Some row;
                                               rs_closed := false |}]> (cursors w)))
           | [] =>
               (false, set_cursors w (<[a := {| rs_columns := rs_columns r;
                                                rs_pending := [];
                                                rs_lastcols := rs_lastcols r;
                                                rs_closed := true |}]> (cursors w)))
           end
  | _, _ => (false, w)
  end.

(** [Rows.Scan]: copies the row prepared by the last [Next]; every call,
    even the first one, must be preceded by a call to [Next]. *)
Definition rows_Scan (p : sql_Rows) (dest : list any) (w : world)
  : option error * world :=
  match deref (cursors w) p with
  | Some r =>
      if rs_closed r then (Some errRowsClosed, w)
      else match rs_lastcols r with
           | None => (Some errScanWithoutNext, w)
           | Some cols =>
               if negb (bool_decide (length dest = length cols))
               then (Some (errScanArity (length cols) (length dest)), w)
               else let '(h, e) := assign_columns (rs_columns r) 0 cols dest (heap w) in
                    (e, set_heap w h)
           end
  | None => (Some nil_deref, w)
  end.

Definition serve : vendor world := fun c =>
  match c as c0 return world -> resp c0 * world with
  | sql_Open d s => Open d s
  | DB_PingContext p ctx => db_PingContext p ctx
  | DB_Close p => db_Close p
  | DB_PrepareContext p ctx q => db_PrepareContext p ctx q
  | DB_BeginTx p ctx opts => db_BeginTx p ctx opts
  | Stmt_Close p => stmt_Close p
  | Stmt_ExecContext p ctx args => stmt_ExecContext p ctx args
  | Stmt_QueryContext p ctx args => stmt_QueryContext p ctx args
  | Tx_Commit p => tx_finish p
  | Tx_Rollback p => tx_finish p
  | Rows_Columns p => rows_Columns p
  | Rows_Close p => rows_Close p
  | Rows_Next p => rows_Next p
  | Rows_Scan p dest => rows_Scan p dest
  end.
End Calls.

(** The same server with other contexts cancelled. *)
Definition with_ctx_done (srv : server) (cancelled : nat -> bool) : server :=
  {| dsn_wellformed := dsn_wellformed srv; accepts := accepts srv;
     ctx_done := cancelled; compiles := compiles srv;
     exec_outcome := exec_outcome srv; query_outcome := query_outcome srv |}.

(** The pools that have not been closed, and the server sessions held. *)
Definition open_pools (w : world) : list DBState :=
  filter (fun d => db_closed d = false) (dbs w).

Definition sessions (w : world) : nat := sum_list (db_sessions <$> dbs w).

Definition empty : world :=
  {| dbs := []; stmts := []; txs := []; cursors := []; heap := [] |}.
End StdSQL.

(** ** A concrete deployment

    The scenario of the specification: one reachable server behind
    [user:pass@tcp(host:3306)/db], one host that is down, a table [t] whose
    only row has [id = 5]. *)
Module Scenario.
Definition good_dsn : string := "user:pass@tcp(host:3306)/db".
Definition down_dsn : string := "user:pass@tcp(down:3306)/db".
Definition select_by_id : string := "SELECT id, name FROM t WHERE id = ?".

Definition srv : StdSQL.server := {|
  StdSQL.dsn_wellformed s := bool_decide (s = good_dsn) || bool_decide (s = down_dsn);
  StdSQL.accepts s := bool_decide (s = good_dsn);
  StdSQL.ctx_done id := bool_decide (id = 1);
  StdSQL.compiles q := bool_decide (q = select_by_id);
  StdSQL.exec_outcome q args := inl {| LastInsertId := 0; RowsAffected := 1 |};
  StdSQL.query_outcome q args :=
    if bool_decide (args = [AnyValue (VInt64 5)])
    then inl (["id"; "name"], [[VInt64 5; VString "a"]])
    else inl (["id"; "name"], [])
|}.

(** The caller owns one two-slot array. *)
Definition start : StdSQL.world := StdSQL.set_heap StdSQL.empty [[VNil; VNil]].
Definition dest : slice := Slice 0 0 2.

(** [Connect], then [Prepare]: the state with one statement ready. *)
Definition prepare : Prog (option mysqlStmt) :=
  '(c, _) ← Connect {| dsn := good_dsn |} Background;
  match c with
  | None => Ret None
  | Some c => '(s, _) ← mysqlConn_Prepare c select_by_id; Ret s
  end.

Definition prepared : StdSQL.world := after (StdSQL.serve srv) prepare start.
Definition the_stmt : mysqlStmt := {| stmt := Some 0 |}.
Definition the_rows : mysqlRows := {| rows := Some 0 |}.

(** The state after [Query] with one argument. *)
Definition queried (arg : Z) : StdSQL.world :=
  after (StdSQL.serve srv) (mysqlStmt_Query the_stmt [VInt64 arg]) prepared.

(** The state once the vendor's [Rows.Next] has prepared the row. *)
Definition row_ready : StdSQL.world :=
  after (StdSQL.serve srv) (call (Rows_Next (Some 0))) (queried 5).

(** [n] rounds of the vendor's own [Rows.Next] followed by the adapter's
    [Next]: what a cursor over [*sql.Rows] has to do to reach a row. *)
Fixpoint vendor_Next_then_Next (r : mysqlRows) (n : nat) : Prog (list (option error)) :=
  match n with
  | 0 => Ret []
  | S n' =>
      more ← call (Rows_Next (rows r));
      e ← (if more : bool then mysqlRows_Next r dest else Ret (Some io_EOF));
      es ← vendor_Next_then_Next r n';
      Ret (e :: es)
  end.

(** A world with one transaction open. *)
Definition begin_tx : Prog (option mysqlTx) :=
  '(c, _) ← Connect {| dsn := good_dsn |} Background;
  match c with
  | None => Ret None
  | Some c => '(t, _) ← mysqlConn_Begin c; Ret t
  end.

Definition in_tx : StdSQL.world := after (StdSQL.serve srv) begin_tx start.
Definition the_tx : mysqlTx := {| tx := Some 0 |}.

(** A vendor whose transactions accept everything, any number of times. *)
Definition lenient : vendor unit := fun c =>
  match c as c0 return unit -> resp c0 * unit with
  | sql_Open _ _ => fun u => ((Some 0, None), u)
  | DB_PingContext _ _ => fun u => (None, u)
  | DB_Close _ => fun u => (None, u)
  | DB_PrepareContext _ _ _ => fun u => ((Some 0, None), u)
  | DB_BeginTx _ _ _ => fun u => ((Some 0, None), u)
  | Stmt_Close _ => fun u => (None, u)
  | Stmt_ExecContext _ _ _ => fun u => ((None, None), u)
  | Stmt_QueryContext _ _ _ => fun u => ((Some 0, None), u)
  | Tx_Commit _ => fun u => (None, u)
  | Tx_Rollback _ => fun u => (None, u)
  | Rows_Columns _ => fun u => (([], None), u)
  | Rows_Close _ => fun u => (None, u)
  | Rows_Next _ => fun u => (false, u)
  | Rows_Scan _ _ => fun u => (None, u)
  end.
End Scenario.

(** ** The loader

    [MysqlLoader] registers the adapter with the framework.  Its
    collaborators (the DSN builder, the [SQLDatabase] wrapper of lib-sql, the
    dialects) are outside the package, so [Init] is a program over their
    calls, as the adapter is over the vendor's.  The configuration struct and
    the other dynamic values an argument can hold are types of the
    framework; they stay parameters. *)

Record MysqlLoader := { name : string }.

(** [a.name = name], through the pointer receiver. *)
Definition SetName (a : MysqlLoader) (name : string) : MysqlLoader :=
  {| name := name |}.

Definition Name (a : MysqlLoader) : string := name a.

(** One element of [args ...any]: a [config.DatabaseConfig], or a value of
    any other dynamic type (nil included). *)
Inductive goarg (Config Other : Type) : Type :=
| ArgConfig (cfg : Config)
| ArgOther (v : Other).

Arguments ArgConfig {Config Other} cfg.
Arguments ArgOther {Config Other} v.

(** The run-time panics [Init] can raise: [args[1]] out of range, and the
    failed type assertion [.(config.DatabaseConfig)]. *)
Inductive panic (Other : Type) : Type :=
| IndexOutOfRange (index len : nat)
| InterfaceConversion (v : Other).

Arguments IndexOutOfRange {Other} index len.
Arguments InterfaceConversion {Other} v.

Inductive completion (Other A : Type) : Type :=
| Returned (a : A)
| Panicked (p : panic Other).

Arguments Returned {Other A} a.
Arguments Panicked {Other A} p.

(** Programs over any call signature. *)
Inductive Tree (C : Type) (ans : C -> Type) (R : Type) : Type :=
| Leaf (r : R)
| Node (c : C) (k : ans c -> Tree C ans R).

Arguments Leaf {C ans R} r.
Arguments Node {C ans R} c k.

Section TreeRun.
Context {C : Type} {ans : C -> Type} {W : Type}.
Variable H : forall c : C, W -> ans c * W.

Fixpoint tree_run {R : Type} (t : Tree C ans R) (w : W) : R * W :=
  match t with
  | Leaf r => (r, w)
  | Node c k => let '(x, w') := H c w in tree_run (k x) w'
  end.

Fixpoint tree_calls {R : Type} (t : Tree C ans R) (w : W) : list C :=
  match t with
  | Leaf _ => []
  | Node c k => let '(x, w') := H c w in c :: tree_calls (k x) w'
  end.
End TreeRun.

(** The loader of the driver adapter, over bun. *)
Module Loader.
Section Collaborators.
Variables Config Other : Type.

(** Pointers to the objects of lib-sql and bun are addresses. *)
Inductive lib_call :=
| libsql_BuildDSN (config : Config)
| new_SQLDatabase
| libsql_NewConnector (driverName : string) (c : Connector)
| mysqldialect_New
| SQLDatabase_SetBunDB (db driver dialect : nat)
| SQLDatabase_Install (db : nat) (args : list (goarg Config Other))
| SQLDatabase_Connect (db : nat).

Definition ans (c : lib_call) : Type :=
  match c with
  | libsql_BuildDSN _ => string
  | new_SQLDatabase => nat
  | libsql_NewConnector _ _ => nat
  | mysqldialect_New => nat
  | SQLDatabase_SetBunDB _ _ _ => unit
  | SQLDatabase_Install _ _ => option error
  | SQLDatabase_Connect _ => option error
  end.

(** [Init]: the result is the library (the [*SQLDatabase], or nil) and the
    error.  Whatever [db.Connect()] returns is discarded. *)
Definition Init (l : MysqlLoader) (args : list (goarg Config Other))
  : Tree lib_call ans (completion Other (option nat * option error)) :=
  match args !! 1 with
  | None => Leaf (Panicked (IndexOutOfRange 1 (length args)))
  | Some (ArgOther v) => Leaf (Panicked (InterfaceConversion v))
  | Some (ArgConfig config) =>
      Node (libsql_BuildDSN config) (fun dsn =>
      Node new_SQLDatabase (fun db =>
      Node (libsql_NewConnector "mysql" {| dsn := dsn |}) (fun driver =>
      Node mysqldialect_New (fun dialect =>
      Node (SQLDatabase_SetBunDB db driver dialect) (fun _ =>
      Node (SQLDatabase_Install db args) (fun err =>
      match err with
      | Some err => Leaf (Returned (None, Some err))
      | None =>
          Node (SQLDatabase_Connect db) (fun _ =>
          Leaf (Returned (Some db, None)))
      end))))))
  end.

(** The connectors a run has registered with lib-sql. *)
Definition registered (cs : list lib_call) : list (string * Connector) :=
  omap (fun c => match c with
                 | libsql_NewConnector driverName c => Some (driverName, c)
                 | _ => None
                 end) cs.
End Collaborators.

Arguments libsql_BuildDSN {Config Other} config.
Arguments new_SQLDatabase {Config Other}.
Arguments libsql_NewConnector {Config Other} driverName c.
Arguments mysqldialect_New {Config Other}.
Arguments SQLDatabase_SetBunDB {Config Other} db driver dialect.
Arguments SQLDatabase_Install {Config Other} db args.
Arguments SQLDatabase_Connect {Config Other} db.
Arguments ans {Config Other} c.
Arguments Init {Config Other} l args.
Arguments registered {Config Other} cs.
End Loader.

(** The loader of [loader.go], over gorm. *)
Module GormLoader.
Section Collaborators.
Variables Config Other : Type.

Inductive lib_call :=
| sql_BuildDSN (config : Config)
| new_SQLDatabase
| mysql_Open (dsn : string)
| SQLDatabase_SetDialect (db dialector : nat)
| SQLDatabase_Install (db : nat) (args : list (goarg Config Other))
| SQLDatabase_Connect (db : nat).

Definition ans (c : lib_call) : Type :=
  match c with
  | sql_BuildDSN _ => string
  | new_SQLDatabase => nat
  | mysql_Open _ => nat
  | SQLDatabase_SetDialect _ _ => unit
  | SQLDatabase_Install _ _ => option error
  | SQLDatabase_Connect _ => option error
  end.

Definition Init (l : MysqlLoader) (args : list (goarg Config Other))
  : Tree lib_call ans (completion Other (option nat * option error)) :=
  match args !! 1 with
  | None => Leaf (Panicked (IndexOutOfRange 1 (length args)))
  | Some (ArgOther v) => Leaf (Panicked (InterfaceConversion v))
  | Some (ArgConfig config) =>
      Node (sql_BuildDSN config) (fun dsn =>
      Node new_SQLDatabase (fun db =>
      Node (mysql_Open dsn) (fun dialector =>
      Node (SQLDatabase_SetDialect db dialector) (fun _ =>
      Node (SQLDatabase_Install db args) (fun err =>
      match err with
      | Some err => Leaf (Returned (None, Some err))
      | None =>
          Node (SQLDatabase_Connect db) (fun _ =>
          Leaf (Returned (Some db, None)))
      end)))))
  end.
End Collaborators.

Arguments sql_BuildDSN {Config Other} config.
Arguments new_SQLDatabase {Config Other}.
Arguments mysql_Open {Config Other} dsn.
Arguments SQLDatabase_SetDialect {Config Other} db dialector.
Arguments SQLDatabase_Install {Config Other} db args.
Arguments SQLDatabase_Connect {Config Other} db.
Arguments ans {Config Other} c.
Arguments Init {Config Other} l args.
End GormLoader.

(** A pool of [database/sql] as [Connect] leaves it. *)
Definition pool_of (c : Connector) (n : nat) (closed : bool) : StdSQL.DBState :=
  {| StdSQL.db_dsn := dsn c; StdSQL.db_sessions := n; StdSQL.db_closed := closed |}.

(** ** More of the deployment *)
Module Deployment.
(** The reference vendor, except that closing a pool reports an error. *)
Definition close_fails : vendor StdSQL.world := fun c =>
  match c as c0 return StdSQL.world -> resp c0 * StdSQL.world with
  | DB_Close p => fun w =>
      (Some (errors_New "close: broken pipe"), snd (StdSQL.serve Scenario.srv (DB_Close p) w))
  | c0 => StdSQL.serve Scenario.srv c0
  end.

(** Collaborators of the loader: the configuration is a host name, any
    other argument a number; addresses are handed out in order; [Install]
    refuses an argument list that starts with the number 13, and
    [db.Connect()] always reports a failure. *)
Definition build (host : string) : string := "user:pass@tcp(" +:+ host +:+ ":3306)/db".

Definition refuses (args : list (goarg string nat)) : bool :=
  match args with
  | ArgOther 13 :: _ => true
  | _ => false
  end.

Definition install_failed : error := errors_New "install: refused".
Definition connect_failed : error := errors_New "connect: unreachable".

Definition bun : forall c : Loader.lib_call string nat, nat -> Loader.ans c * nat :=
  fun c =>
    match c as c0 return nat -> Loader.ans c0 * nat with
    | Loader.libsql_BuildDSN host => fun n => (build host, n)
    | Loader.new_SQLDatabase => fun n => (n, S n)
    | Loader.libsql_NewConnector _ _ => fun n => (n, S n)
    | Loader.mysqldialect_New => fun n => (n, S n)
    | Loader.SQLDatabase_SetBunDB _ _ _ => fun n => (tt, n)
    | Loader.SQLDatabase_Install _ args => fun n =>
        (if refuses args then Some install_failed else None, n)
    | Loader.SQLDatabase_Connect _ => fun n => (Some connect_failed, n)
    end.

Definition gorm : forall c : GormLoader.lib_call string nat, nat -> GormLoader.ans c * nat :=
  fun c =>
    match c as c0 return nat -> GormLoader.ans c0 * nat with
    | GormLoader.sql_BuildDSN host => fun n => (build host, n)
    | GormLoader.new_SQLDatabase => fun n => (n, S n)
    | GormLoader.mysql_Open _ => fun n => (n, S n)
    | GormLoader.SQLDatabase_SetDialect _ _ => fun n => (tt, n)
    | GormLoader.SQLDatabase_Install _ args => fun n =>
        (if refuses args then Some install_failed else None, n)
    | GormLoader.SQLDatabase_Connect _ => fun n => (Some connect_failed, n)
    end.

Definition loader : MysqlLoader := {| name := "mysql" |}.
Definition good_args : list (goarg string nat) := [ArgOther 0; ArgConfig "host"].
Definition refused_args : list (goarg string nat) := [ArgOther 13; ArgConfig "host"].
End Deployment.

(** * Properties *)

(** ** Running sequenced programs *)
Section RunLemmas.
Context {W : Type} (V : vendor W).

Lemma run_bind {A B : Type} (p : Prog A) (f : A -> Prog B) (w : W) :
  run V (p ≫= f) w = run V (f (result V p w)) (after V p w).
Proof.
  revert w. induction p as [a | c k IH]; intros w; [reflexivity |].
  cbn. unfold result, after. cbn.
  destruct (V c w) as [x w']. apply IH.
Qed.

Lemma calls_bind {A B : Type} (p : Prog A) (f : A -> Prog B) (w : W) :
  calls V (p ≫= f) w = calls V p w ++ calls V (f (result V p w)) (after V p w).
Proof.
  revert w. induction p as [a | c k IH]; intros w; [reflexivity |].
  cbn. unfold result, after. cbn.
  destruct (V c w) as [x w']. cbn. f_equal. apply IH.
Qed.

Lemma run_call (c : vendor_call) (w : W) : run V (call c) w = V c w.
Proof. cbn. by destruct (V c w). Qed.

Lemma calls_call (c : vendor_call) (w : W) : calls V (call c) w = [c].
Proof. cbn. by destruct (V c w). Qed.
End RunLemmas.

(** ** Connect *)
Section ConnectAnyVendor.
Context {W : Type} (V : vendor W).
Variables (c : Connector) (ctx : Context) (w : W).

Let opened := V (sql_Open "mysql" (dsn c)) w.
Let d := fst (fst opened).
Let pinged := V (DB_PingContext d ctx) (snd opened).
Let closed := V (DB_Close d) (snd pinged).

(** The three paths of [Connect], told apart by the vendor's answers. *)
Lemma Connect_open_fails (e : error) :
  snd (fst opened) = Some e ->
  run V (Connect c ctx) w = ((None, Some (fmt_Errorf_w "failed to open mysql: " e)), snd opened)
  /\ calls V (Connect c ctx) w = [sql_Open "mysql" (dsn c)].
Proof.
  subst closed pinged d opened. cbn.
  destruct (V (sql_Open "mysql" (dsn c)) w) as [[p oe] w1]. cbn.
  intros ->. by cbn.
Qed.

Lemma Connect_ping_fails (e : error) :
  snd (fst opened) = None -> fst pinged = Some e ->
  run V (Connect c ctx) w = ((None, Some (fmt_Errorf_w "failed to ping mysql: " e)), snd closed)
  /\ calls V (Connect c ctx) w =
     [sql_Open "mysql" (dsn c); DB_PingContext d ctx; DB_Close d].
Proof.
  subst closed pinged d opened. cbn.
  destruct (V (sql_Open "mysql" (dsn c)) w) as [[p oe] w1]. cbn.
  intros ->. cbn.
  destruct (V (DB_PingContext p ctx) w1) as [pe w2]. cbn.
  intros ->. cbn.
  by destruct (V (DB_Close p) w2) as [ce w3].
Qed.

Lemma Connect_succeeds :
  snd (fst opened) = None -> fst pinged = None ->
  run V (Connect c ctx) w = ((Some {| db := d |}, None), snd pinged)
  /\ calls V (Connect c ctx) w = [sql_Open "mysql" (dsn c); DB_PingContext d ctx].
Proof.
  subst closed pinged d opened. cbn.
  destruct (V (sql_Open "mysql" (dsn c)) w) as [[p oe] w1]. cbn.
  intros ->. cbn.
  destruct (V (DB_PingContext p ctx) w1) as [pe w2]. cbn.
  intros ->. by cbn.
Qed.
End ConnectAnyVendor.

(** Tables of vendor objects grow at the end; the newest object sits at the
    old length. *)
Lemma lookup_newest {A : Type} (l : list A) (x : A) : (l ++ [x]) !! length l = Some x.
Proof. by apply list_lookup_middle. Qed.

Lemma insert_newest {A : Type} (l : list A) (x y : A) :
  <[length l := y]> (l ++ [x]) = l ++ [y].
Proof. rewrite insert_app_r_alt; [| lia]. by rewrite Nat.sub_diag. Qed.

Section ConnectStdSQL.
Variable srv : StdSQL.server.
Variables (c : Connector) (ctx : Context) (w : StdSQL.world).

Let pool (n : nat) (closed : bool) : StdSQL.DBState :=
  {| StdSQL.db_dsn := dsn c; StdSQL.db_sessions := n; StdSQL.db_closed := closed |}.

(** [Connect] against [database/sql], in closed form. *)
Lemma Connect_StdSQL :
  run (StdSQL.serve srv) (Connect c ctx) w =
  if negb (StdSQL.dsn_wellformed srv (dsn c))
  then ((None, Some (fmt_Errorf_w "failed to open mysql: " StdSQL.errInvalidDSN)), w)
  else if StdSQL.done srv ctx
  then ((None, Some (fmt_Errorf_w "failed to ping mysql: " StdSQL.context_Canceled)),
        StdSQL.set_dbs w (StdSQL.dbs w ++ [pool 0 true]))
  else if negb (StdSQL.accepts srv (dsn c))
  then ((None, Some (fmt_Errorf_w "failed to ping mysql: " StdSQL.errBadConn)),
        StdSQL.set_dbs w (StdSQL.dbs w ++ [pool 0 true]))
  else ((Some {| db := Some (length (StdSQL.dbs w)) |}, None),
        StdSQL.set_dbs w (StdSQL.dbs w ++ [pool 1 false])).
Proof.
  subst pool. cbn. unfold StdSQL.Open.
  rewrite (bool_decide_eq_true_2 ("mysql" = "mysql")) by done. cbn.
  destruct (StdSQL.dsn_wellformed srv (dsn c)); cbn; [| done].
  unfold StdSQL.db_PingContext. cbn. rewrite lookup_newest.
  unfold StdSQL.conn. cbn.
  destruct (StdSQL.done srv ctx); cbn.
  - unfold StdSQL.db_Close. cbn. rewrite lookup_newest. cbn.
    by rewrite insert_newest.
  - destruct (StdSQL.accepts srv (dsn c)); cbn.
    + by rewrite insert_newest.
    + unfold StdSQL.db_Close. cbn. rewrite lookup_newest. cbn.
      by rewrite insert_newest.
Qed.

(** A failed [Connect] leaves the pools and the sessions as they were. *)
Lemma Connect_StdSQL_no_leak :
  match snd (result (StdSQL.serve srv) (Connect c ctx) w) with
  | Some _ =>
      StdSQL.open_pools (after (StdSQL.serve srv) (Connect c ctx) w) = StdSQL.open_pools w
      /\ StdSQL.sessions (after (StdSQL.serve srv) (Connect c ctx) w) = StdSQL.sessions w
  | None =>
      StdSQL.open_pools (after (StdSQL.serve srv) (Connect c ctx) w)
      = StdSQL.open_pools w ++ [pool 1 false]
  end.
Proof.
  unfold result, after. rewrite Connect_StdSQL.
  unfold StdSQL.open_pools, StdSQL.sessions.
  destruct (StdSQL.dsn_wellformed srv (dsn c)); cbn; [| done].
  destruct (StdSQL.done srv ctx); cbn.
  - rewrite filter_app, fmap_app, sum_list_with_app. cbn.
    rewrite app_nil_r. split; [done | lia].
  - destruct (StdSQL.accepts srv (dsn c)); cbn.
    + by rewrite filter_app.
    + rewrite filter_app, fmap_app, sum_list_with_app. cbn.
      rewrite app_nil_r. split; [done | lia].
Qed.
End ConnectStdSQL.

Lemma errors_Is_refl (e : error) : errors_Is e e = true.
Proof. destruct e; cbn; by rewrite bool_decide_eq_true_2. Qed.

(** Wrapping with [%w] keeps the cause: it is what [Unwrap] returns, what
    [errors.Is] finds, and its text follows the prefix. *)
Lemma wrap_keeps_cause (prefix : string) (e : error) :
  Unwrap (fmt_Errorf_w prefix e) = Some e
  /\ Error (fmt_Errorf_w prefix e) = prefix +:+ Error e
  /\ errors_Is (fmt_Errorf_w prefix e) e = true.
Proof.
  repeat split. cbn. rewrite errors_Is_refl. apply orb_true_r.
Qed.

(** C3.  Whatever the vendor answers, [Connect] opens the client first and
    pings the opened handle, with the caller's context, before it reports
    success; when the ping fails its last vendor call closes that same
    handle, and only then the error is returned.  Against [database/sql] a
    failed [Connect] leaves the unclosed pools and the held sessions exactly
    as they were, and a [Connect] under a cancelled context fails. *)
Theorem Connect_pings_then_releases :
  (forall (W : Type) (V : vendor W) (c : Connector) (ctx : Context) (w : W),
      let opened := V (sql_Open "mysql" (dsn c)) w in
      let d := fst (fst opened) in
      let pinged := V (DB_PingContext d ctx) (snd opened) in
      match snd (fst opened), fst pinged with
      | Some _, _ =>
          calls V (Connect c ctx) w = [sql_Open "mysql" (dsn c)]
          /\ fst (result V (Connect c ctx) w) = None
          /\ after V (Connect c ctx) w = snd opened
      | None, Some _ =>
          calls V (Connect c ctx) w
          = [sql_Open "mysql" (dsn c); DB_PingContext d ctx; DB_Close d]
          /\ fst (result V (Connect c ctx) w) = None
          /\ after V (Connect c ctx) w = snd (V (DB_Close d) (snd pinged))
      | None, None =>
          calls V (Connect c ctx) w = [sql_Open "mysql" (dsn c); DB_PingContext d ctx]
          /\ result V (Connect c ctx) w = (Some {| db := d |}, None)
          /\ after V (Connect c ctx) w = snd pinged
      end)
  /\ (forall (srv : StdSQL.server) (c : Connector) (ctx : Context) (w : StdSQL.world),
         let V := StdSQL.serve srv in
         match snd (result V (Connect c ctx) w) with
         | Some _ =>
             fst (result V (Connect c ctx) w) = None
             /\ StdSQL.open_pools (after V (Connect c ctx) w) = StdSQL.open_pools w
             /\ StdSQL.sessions (after V (Connect c ctx) w) = StdSQL.sessions w
         | None => StdSQL.done srv ctx = false
         end).
Proof.
  split.
  - intros W V c ctx w opened d pinged.
    destruct (snd (fst opened)) as [e |] eqn:Ho.
    + destruct (Connect_open_fails V c ctx w e Ho) as [Hr Hc].
      unfold result, after. by rewrite Hr, Hc.
    + destruct (fst pinged) as [e |] eqn:Hp.
      * destruct (Connect_ping_fails V c ctx w e Ho Hp) as [Hr Hc].
        unfold result, after. by rewrite Hr, Hc.
      * destruct (Connect_succeeds V c ctx w Ho Hp) as [Hr Hc].
        unfold result, after. by rewrite Hr, Hc.
  - intros srv c ctx w V.
    pose proof (Connect_StdSQL_no_leak srv c ctx w) as Hleak.
    subst V. unfold result, after in *. rewrite Connect_StdSQL in *.
    destruct (StdSQL.dsn_wellformed srv (dsn c)); cbn in *; [| done].
    destruct (StdSQL.done srv ctx); cbn in *; [done |].
    destruct (StdSQL.accepts srv (dsn c)); cbn in *; done.
Qed.

(** C7.  [Connect] returns a connection or an error, never both and never
    neither.  The error is the vendor's own error wrapped with the prefix
    of the call that failed, "failed to open mysql: " for [sql.Open] and
    "failed to ping mysql: " for the ping; the wrapped cause stays
    reachable.  Against [database/sql] a malformed connection string gives
    the open error, a refused or unreachable server the ping error. *)
Theorem Connect_wraps_and_classifies :
  (forall (W : Type) (V : vendor W) (c : Connector) (ctx : Context) (w : W),
      let opened := V (sql_Open "mysql" (dsn c)) w in
      let pinged := V (DB_PingContext (fst (fst opened)) ctx) (snd opened) in
      let r := result V (Connect c ctx) w in
      match fst r, snd r with
      | Some _, None | None, Some _ => True
      | _, _ => False
      end
      /\ match snd (fst opened), fst pinged with
         | Some e, _ => snd r = Some (fmt_Errorf_w "failed to open mysql: " e)
         | None, Some e => snd r = Some (fmt_Errorf_w "failed to ping mysql: " e)
         | None, None => snd r = None
         end)
  /\ (forall (prefix : string) (e : error),
         Unwrap (fmt_Errorf_w prefix e) = Some e
         /\ Error (fmt_Errorf_w prefix e) = prefix +:+ Error e
         /\ errors_Is (fmt_Errorf_w prefix e) e = true)
  /\ (forall (srv : StdSQL.server) (c : Connector) (ctx : Context) (w : StdSQL.world),
         snd (result (StdSQL.serve srv) (Connect c ctx) w)
         = if negb (StdSQL.dsn_wellformed srv (dsn c))
           then Some (fmt_Errorf_w "failed to open mysql: " StdSQL.errInvalidDSN)
           else if StdSQL.done srv ctx
           then Some (fmt_Errorf_w "failed to ping mysql: " StdSQL.context_Canceled)
           else if negb (StdSQL.accepts srv (dsn c))
           then Some (fmt_Errorf_w "failed to ping mysql: " StdSQL.errBadConn)
           else None).
Proof.
  split; [| split].
  - intros W V c ctx w opened pinged r.
    destruct (snd (fst opened)) as [e |] eqn:Ho.
    + destruct (Connect_open_fails V c ctx w e Ho) as [Hr _].
      subst r. unfold result. by rewrite Hr.
    + destruct (fst pinged) as [e |] eqn:Hp.
      * destruct (Connect_ping_fails V c ctx w e Ho Hp) as [Hr _].
        subst r. unfold result. by rewrite Hr.
      * destruct (Connect_succeeds V c ctx w Ho Hp) as [Hr _].
        subst r. unfold result. by rewrite Hr.
  - apply wrap_keeps_cause.
  - intros srv c ctx w. unfold result. rewrite Connect_StdSQL.
    destruct (StdSQL.dsn_wellformed srv (dsn c)); cbn; [| done].
    destruct (StdSQL.done srv ctx); cbn; [done |].
    by destruct (StdSQL.accepts srv (dsn c)).
Qed.

(** ** One method, one vendor call *)

(** Every method is its vendor call followed by a pure reading of the
    answer. *)
Lemma invoke_shape (m : method) :
  exists k, invoke m = Call (delegate m) k /\ forall x, k x = Ret (settle m x).
Proof.
  destruct m; eexists; (split; [reflexivity |]); cbn;
    try (intros [? [?|]]; reflexivity); try (intros [? ?]; reflexivity);
    intros ?; reflexivity.
Qed.

Section OneCall.
Context {W : Type} (V : vendor W).

Lemma run_invoke (m : method) (w : W) :
  run V (invoke m) w = (settle m (fst (V (delegate m) w)), snd (V (delegate m) w)).
Proof.
  destruct (invoke_shape m) as (k & -> & Hk). cbn.
  destruct (V (delegate m) w) as [x w']. by rewrite Hk.
Qed.

Lemma calls_invoke (m : method) (w : W) : calls V (invoke m) w = [delegate m].
Proof.
  destruct (invoke_shape m) as (k & -> & Hk). cbn.
  destruct (V (delegate m) w) as [x w']. by rewrite Hk.
Qed.

Lemma history_calls_delegate (ms : list method) (w : W) :
  history_calls V ms w = delegate <$> ms.
Proof.
  revert w. induction ms as [| m ms IH]; intros w; [done |].
  cbn. by rewrite calls_invoke, IH.
Qed.
End OneCall.

(** Under [context.Background] the server's view of cancelled contexts
    plays no part in a call. *)
Lemma serve_Background_blind (srv : StdSQL.server) (cancelled : nat -> bool)
      (m : method) (w : StdSQL.world) :
  StdSQL.serve (StdSQL.with_ctx_done srv cancelled) (delegate m) w
  = StdSQL.serve srv (delegate m) w.
Proof. by destruct m. Qed.

(** C4.  [Prepare], [Begin], [Exec] and [Query] take no context; the one
    vendor call each of them issues carries [context.Background], whatever
    the vendor, the state and the arguments.  Against [database/sql] their
    results and effects are the same whichever caller contexts are
    cancelled. *)
Theorem per_call_paths_run_under_Background :
  (forall (W : Type) (V : vendor W) (w : W)
          (c : mysqlConn) (query : string) (s : mysqlStmt) (args : list Value),
      calls V (mysqlConn_Prepare c query) w = [DB_PrepareContext (db c) Background query]
      /\ calls V (mysqlConn_Begin c) w = [DB_BeginTx (db c) Background None]
      /\ calls V (mysqlStmt_Exec s args) w
         = [Stmt_ExecContext (stmt s) Background (ToNamedValues args)]
      /\ calls V (mysqlStmt_Query s args) w
         = [Stmt_QueryContext (stmt s) Background (ToNamedValues args)]
      /\ call_ctx <$> calls V (mysqlConn_Prepare c query) w = [Some Background]
      /\ call_ctx <$> calls V (mysqlConn_Begin c) w = [Some Background]
      /\ call_ctx <$> calls V (mysqlStmt_Exec s args) w = [Some Background]
      /\ call_ctx <$> calls V (mysqlStmt_Query s args) w = [Some Background])
  /\ (forall (srv : StdSQL.server) (cancelled : nat -> bool) (w : StdSQL.world)
             (c : mysqlConn) (query : string) (s : mysqlStmt) (args : list Value),
         let V := StdSQL.serve srv in
         let V' := StdSQL.serve (StdSQL.with_ctx_done srv cancelled) in
         run V' (mysqlConn_Prepare c query) w = run V (mysqlConn_Prepare c query) w
         /\ run V' (mysqlConn_Begin c) w = run V (mysqlConn_Begin c) w
         /\ run V' (mysqlStmt_Exec s args) w = run V (mysqlStmt_Exec s args) w
         /\ run V' (mysqlStmt_Query s args) w = run V (mysqlStmt_Query s args) w).
Proof.
  split.
  - intros W V w c query s args.
    rewrite (calls_invoke V (M_Prepare c query)), (calls_invoke V (M_Begin c)),
      (calls_invoke V (M_Exec s args)), (calls_invoke V (M_Query s args)).
    by cbn.
  - intros srv cancelled w c query s args V V'. subst V V'.
    rewrite !(run_invoke _ (M_Prepare c query)), !(run_invoke _ (M_Begin c)),
      !(run_invoke _ (M_Exec s args)), !(run_invoke _ (M_Query s args)).
    by rewrite !serve_Background_blind.
Qed.

(** C5.  [Exec] and [Query] hand the vendor exactly [ToNamedValues args],
    and that list is the argument list boxed in place: the same length, at
    every position the caller's value unchanged, no pointer among them, and
    unboxing returns the original list. *)
Theorem marshalling_is_pass_through :
  (forall (W : Type) (V : vendor W) (w : W) (s : mysqlStmt) (args : list Value),
      call_args <$> calls V (mysqlStmt_Exec s args) w = [ToNamedValues args]
      /\ call_args <$> calls V (mysqlStmt_Query s args) w = [ToNamedValues args])
  /\ (forall args : list Value,
         length (ToNamedValues args) = length args
         /\ (forall i : nat, ToNamedValues args !! i = AnyValue <$> args !! i)
         /\ mapM unbox (ToNamedValues args) = Some args).
Proof.
  split.
  - intros W V w s args.
    by rewrite (calls_invoke V (M_Exec s args)), (calls_invoke V (M_Query s args)).
  - intros args. unfold ToNamedValues. split; [apply length_fmap |].
    split; [intros i; apply list_lookup_fmap |].
    by apply mapM_fmap_Some.
Qed.

(** C6.  [Columns] has no error to return.  Its result is the column list
    of the vendor's answer, whatever error came with it; [database/sql]
    answers a failure with no columns, so the result is empty then, and it
    is the vendor's list, in order, otherwise. *)
Theorem Columns_never_fails :
  (forall (W : Type) (V : vendor W) (r : mysqlRows) (w : W),
      result V (mysqlRows_Columns r) w = fst (fst (V (Rows_Columns (rows r)) w))
      /\ after V (mysqlRows_Columns r) w = snd (V (Rows_Columns (rows r)) w)
      /\ calls V (mysqlRows_Columns r) w = [Rows_Columns (rows r)])
  /\ (forall (srv : StdSQL.server) (r : mysqlRows) (w : StdSQL.world),
         match fst (StdSQL.serve srv (Rows_Columns (rows r)) w) with
         | (_, Some _) => result (StdSQL.serve srv) (mysqlRows_Columns r) w = []
         | (cols, None) => result (StdSQL.serve srv) (mysqlRows_Columns r) w = cols
         end).
Proof.
  split.
  - intros W V r w. unfold result, after.
    rewrite (run_invoke V (M_Columns r)), (calls_invoke V (M_Columns r)). cbn.
    by destruct (V (Rows_Columns (rows r)) w) as [[cols e] w'].
  - intros srv r w. unfold result.
    rewrite (run_invoke _ (M_Columns r)). cbn. unfold StdSQL.rows_Columns.
    destruct (StdSQL.deref (StdSQL.cursors w) (rows r)) as [st |]; [| done].
    by destruct (StdSQL.rs_closed st).
Qed.

(** C8.  [NumInput] is -1 for every statement: for any two statements
    alike, and for the statement [Prepare] returns for any query under any
    vendor. *)
Theorem NumInput_is_minus_one :
  (forall s s' : mysqlStmt,
      mysqlStmt_NumInput s = (-1)%Z /\ mysqlStmt_NumInput s = mysqlStmt_NumInput s')
  /\ (forall (W : Type) (V : vendor W) (w : W) (c : mysqlConn) (query : string),
         match fst (result V (mysqlConn_Prepare c query) w) with
         | Some s => mysqlStmt_NumInput s = (-1)%Z
         | None => True
         end).
Proof.
  split; [done |]. intros W V w c query.
  by destruct (fst (result V (mysqlConn_Prepare c query) w)).
Qed.

(** C10.  Each of [Prepare], [Begin], [Close], [Exec], [Query], [Commit],
    [Rollback], [Columns] and [Next] is one vendor call on the handle stored
    in its receiver, issued before anything is looked at, followed by a pure
    reading of the answer.  So the vendor calls of any sequence of method
    calls are the delegates of those calls, one for one, whatever the vendor
    answered before; the result and the state after each call are the
    vendor's; and [Close], [Commit], [Rollback] and [Next] return the
    vendor's error untouched. *)
Theorem adapter_delegates_unconditionally :
  (forall m : method,
      exists k, invoke m = Call (delegate m) k /\ forall x, k x = Ret (settle m x))
  /\ (forall (W : Type) (V : vendor W) (ms : list method) (w : W),
         history_calls V ms w = delegate <$> ms)
  /\ (forall (W : Type) (V : vendor W) (m : method) (w : W),
         run V (invoke m) w = (settle m (fst (V (delegate m) w)), snd (V (delegate m) w)))
  /\ (forall (c : mysqlConn) (s : mysqlStmt) (t : mysqlTx) (r : mysqlRows)
             (dest : slice) (e : option error),
         settle (M_ConnClose c) e = e /\ settle (M_StmtClose s) e = e
         /\ settle (M_RowsClose r) e = e /\ settle (M_Commit t) e = e
         /\ settle (M_Rollback t) e = e /\ settle (M_Next r dest) e = e).
Proof.
  split; [apply invoke_shape |].
  split; [intros; apply history_calls_delegate |].
  split; [intros; apply run_invoke |].
  by intros.
Qed.

(** ** Transactions *)

(** [database/sql] ends a transaction once: a second [Commit] or [Rollback]
    repeats the error of a failed first one, or reports [ErrTxDone], and
    changes nothing. *)
Lemma tx_finish_again (p : sql_Tx) (w : StdSQL.world) :
  StdSQL.tx_finish p (snd (StdSQL.tx_finish p w))
  = (Some (default StdSQL.ErrTxDone (fst (StdSQL.tx_finish p w))),
     snd (StdSQL.tx_finish p w)).
Proof.
  unfold StdSQL.tx_finish. destruct p as [a |]; cbn; [| done].
  destruct (StdSQL.txs w !! a) as [t |] eqn:Ht; cbn; [| by rewrite Ht].
  destruct (StdSQL.tx_done t) eqn:Hd; cbn.
  - by rewrite Ht, Hd.
  - rewrite list_lookup_insert_eq by (by eapply lookup_lt_Some). by cbn.
Qed.

Lemma tx_invoke_StdSQL (srv : StdSQL.server) (t : mysqlTx) (m : tx_method)
      (w : StdSQL.world) :
  run (StdSQL.serve srv) (tx_invoke t m) w = StdSQL.tx_finish (tx t) w.
Proof. destruct m; cbn; by destruct (StdSQL.tx_finish (tx t) w). Qed.

(** C2, as the code has it.  Every [Commit] and every [Rollback], the first
    and any later one, is the vendor's call on the stored transaction
    handle and returns the vendor's answer unchanged: the adapter has no
    Open/Closed state and no error of its own.  Against [database/sql] the
    answer to a second call is the vendor's: [ErrTxDone] after a first call
    that succeeded, the error of the first call again otherwise, and the
    state is left as the first call left it. *)
Theorem tx_calls_delegate_every_time :
  (forall (W : Type) (V : vendor W) (t : mysqlTx) (w : W),
      run V (mysqlTx_Commit t) w = V (Tx_Commit (tx t)) w
      /\ run V (mysqlTx_Rollback t) w = V (Tx_Rollback (tx t)) w)
  /\ (forall (W : Type) (V : vendor W) (t : mysqlTx) (first second : tx_method) (w : W),
         calls V (tx_invoke t second) (after V (tx_invoke t first) w)
         = [match second with
            | TxCommit => Tx_Commit (tx t)
            | TxRollback => Tx_Rollback (tx t)
            end])
  /\ (forall (srv : StdSQL.server) (t : mysqlTx) (first second : tx_method)
             (w : StdSQL.world),
         let V := StdSQL.serve srv in
         let w1 := after V (tx_invoke t first) w in
         result V (tx_invoke t second) w1
         = Some (default StdSQL.ErrTxDone (result V (tx_invoke t first) w))
         /\ after V (tx_invoke t second) w1 = w1).
Proof.
  split; [| split].
  - intros W V t w.
    split; [apply (run_call V (Tx_Commit (tx t))) | apply (run_call V (Tx_Rollback (tx t)))].
  - intros W V t first second w.
    destruct second;
      [apply (calls_call V (Tx_Commit (tx t))) | apply (calls_call V (Tx_Rollback (tx t)))].
  - intros srv t first second w V w1. subst V w1. unfold result, after.
    rewrite !tx_invoke_StdSQL, tx_finish_again. by cbn.
Qed.

(** C2, as the specification words it, fails.  With a transaction open
    against [database/sql], a first [Commit] succeeds and the second one is
    not stopped by the adapter: it reaches the vendor handle.  Against a
    vendor that accepts everything, a [Rollback] after a [Commit] succeeds
    silently. *)
Lemma second_Commit_reaches_the_vendor :
  result (StdSQL.serve Scenario.srv) (mysqlTx_Commit Scenario.the_tx) Scenario.in_tx = None
  /\ ~ tx_guarded (StdSQL.serve Scenario.srv) Scenario.in_tx Scenario.the_tx
       TxCommit TxCommit
  /\ ~ tx_guarded Scenario.lenient () Scenario.the_tx TxCommit TxRollback.
Proof.
  split; [by vm_compute |]. split.
  - intros [_ H]. vm_compute in H. discriminate H.
  - intros [H _]. by apply H.
Qed.

(** ** Cursors *)

(** A cursor that [Query] returns against [database/sql] is the newest one,
    open, with no row prepared yet. *)
Lemma Query_StdSQL_cursor (srv : StdSQL.server) (s : mysqlStmt) (args : list Value)
      (w w' : StdSQL.world) (r : mysqlRows) :
  run (StdSQL.serve srv) (mysqlStmt_Query s args) w = ((Some r, None), w') ->
  exists st,
    rows r = Some (length (StdSQL.cursors w))
    /\ StdSQL.cursors w' = StdSQL.cursors w ++ [st]
    /\ StdSQL.rs_lastcols st = None /\ StdSQL.rs_closed st = false.
Proof.
  rewrite (run_invoke _ (M_Query s args)). cbn. unfold StdSQL.stmt_QueryContext.
  destruct (StdSQL.stmt_ready srv (stmt s) Background w) as [e | [st w1]] eqn:Hready;
    cbn; [done |].
  destruct (StdSQL.query_outcome srv (StdSQL.st_query st) (ToNamedValues args))
    as [[cols rws] | e]; cbn; [| done].
  intros [= <- <-]. eexists. by cbn.
Qed.

(** On an open cursor with no row prepared, the adapter's [Next] fails in
    the vendor's [Scan] and changes nothing. *)
Lemma Next_without_prepared_row (srv : StdSQL.server) (r : mysqlRows) (dest : slice)
      (w : StdSQL.world) (st : StdSQL.RowsState) :
  StdSQL.deref (StdSQL.cursors w) (rows r) = Some st ->
  StdSQL.rs_closed st = false -> StdSQL.rs_lastcols st = None ->
  run (StdSQL.serve srv) (mysqlRows_Next r dest) w = (Some StdSQL.errScanWithoutNext, w).
Proof.
  intros Hst Hopen Hnone. rewrite (run_invoke _ (M_Next r dest)). cbn.
  unfold StdSQL.rows_Scan. by rewrite Hst, Hopen, Hnone.
Qed.

Lemma Next_times_without_prepared_row (srv : StdSQL.server) (r : mysqlRows)
      (dest : slice) (w : StdSQL.world) (st : StdSQL.RowsState) (n : nat) :
  StdSQL.deref (StdSQL.cursors w) (rows r) = Some st ->
  StdSQL.rs_closed st = false -> StdSQL.rs_lastcols st = None ->
  run (StdSQL.serve srv) (Next_times r dest n) w
  = (replicate n (Some StdSQL.errScanWithoutNext), w).
Proof.
  intros Hst Hopen Hnone. induction n as [| n IH]; [done |].
  cbn [Next_times]. rewrite run_bind. unfold result, after.
  rewrite (Next_without_prepared_row srv r dest w st Hst Hopen Hnone). cbn [fst snd].
  rewrite run_bind. unfold result, after. rewrite IH. by cbn.
Qed.

(** C1, what the code does.  [Next] issues the vendor's [Scan] and nothing
    else: no call advances the cursor.  On every cursor that [Query]
    returns against [database/sql], with any number of result rows, every
    one of any number of [Next] calls returns the vendor's "Scan called
    without calling Next" error, which is not [io.EOF], and leaves the
    destination slots and the cursor as they were. *)
Theorem Next_never_reaches_a_row :
  (forall (W : Type) (V : vendor W) (r : mysqlRows) (dest : slice) (w : W),
      calls V (mysqlRows_Next r dest) w = [Rows_Scan (rows r) (Next_args dest)])
  /\ (forall (srv : StdSQL.server) (s : mysqlStmt) (args : list Value)
             (w w' : StdSQL.world) (r : mysqlRows) (dest : slice) (n : nat),
         run (StdSQL.serve srv) (mysqlStmt_Query s args) w = ((Some r, None), w') ->
         run (StdSQL.serve srv) (Next_times r dest n) w'
         = (replicate n (Some StdSQL.errScanWithoutNext), w'))
  /\ StdSQL.errScanWithoutNext <> io_EOF.
Proof.
  split; [intros; apply (calls_invoke V (M_Next r dest)) |]. split; [| done].
  intros srv s args w w' r dest n HQ.
  destruct (Query_StdSQL_cursor srv s args w w' r HQ) as (st & Hr & Hc & Hnone & Hopen).
  apply (Next_times_without_prepared_row srv r dest w' st n); [| done | done].
  rewrite Hr, Hc. cbn. apply lookup_newest.
Qed.

(** C1 at the scenario of the specification.  The query finds the row with
    [id = 5]; two calls of [Next] into the two-slot destination both return
    the vendor's error, the slots still hold nil and the row is still
    pending. *)
Lemma Next_never_reaches_a_row_witness :
  run (StdSQL.serve Scenario.srv) (Next_times Scenario.the_rows Scenario.dest 2)
      (Scenario.queried 5)
  = ([Some StdSQL.errScanWithoutNext; Some StdSQL.errScanWithoutNext], Scenario.queried 5)
  /\ StdSQL.heap (Scenario.queried 5) = [[VNil; VNil]]
  /\ StdSQL.rs_pending <$> StdSQL.cursors (Scenario.queried 5)
     = [[[VInt64 5; VString "a"]]].
Proof.
  split; [| by vm_compute].
  apply (proj1 (proj2 Next_never_reaches_a_row) Scenario.srv Scenario.the_stmt
               [VInt64 5] Scenario.prepared (Scenario.queried 5) Scenario.the_rows
               Scenario.dest 2).
  by vm_compute.
Defined.

(** Where the query finds no row, the first [Next] returns the same error
    and not [io.EOF]. *)
Lemma Next_on_empty_result :
  result (StdSQL.serve Scenario.srv) (mysqlRows_Next Scenario.the_rows Scenario.dest)
         (Scenario.queried 6)
  = Some StdSQL.errScanWithoutNext
  /\ StdSQL.rs_pending <$> StdSQL.cursors (Scenario.queried 6) = [[]].
Proof. by vm_compute. Qed.

(** With the vendor's [Rows.Next] before each scan the same cursor yields
    its row into the slots and then ends. *)
Lemma vendor_Next_then_Next_reaches_the_row :
  let V := StdSQL.serve Scenario.srv in
  let p := Scenario.vendor_Next_then_Next Scenario.the_rows 2 in
  result V p (Scenario.queried 5) = [None; Some io_EOF]
  /\ StdSQL.heap (after V p (Scenario.queried 5)) = [[VInt64 5; VString "a"]].
Proof. by vm_compute. Qed.

(** ** Destination slots *)

(** Writing [f i] at every index of a window, one index at a time. *)
Lemma foldl_insert_seq_lookup {A : Type} (f : nat -> A) (m : nat) :
  forall (k : nat) (l : list A) (j : nat),
    k + m <= length l ->
    foldl (fun acc i => <[i := f i]> acc) l (seq k m) !! j
    = if decide (k <= j < k + m) then Some (f j) else l !! j.
Proof.
  induction m as [| m IH]; intros k l j Hlen; cbn.
  - case_decide; [lia | done].
  - rewrite IH by (rewrite length_insert; lia).
    destruct (decide (j = k)) as [-> | Hne].
    + rewrite list_lookup_insert_eq by lia.
      repeat case_decide; try lia; done.
    + rewrite list_lookup_insert_ne by done.
      repeat case_decide; try lia; done.
Qed.

(** The loop of [Next] leaves in [args], position by position, the
    addresses of the slots of [dest]. *)
Lemma Next_args_pointers (dest : slice) :
  Next_args dest = (fun i => AnyPtr (elem_addr dest i)) <$> seq 0 (s_len dest).
Proof.
  apply list_eq. intros j. unfold Next_args, make_any.
  rewrite foldl_insert_seq_lookup by (rewrite length_replicate; lia).
  rewrite list_lookup_fmap. case_decide as Hj.
  - rewrite lookup_seq_lt by lia. done.
  - rewrite lookup_seq_ge by lia. cbn.
    apply lookup_replicate_None. lia.
Qed.





(** A NULL column is refused by the vendor's conversion into a
    [*driver.Value]: the scan stops there with the slot as it was. *)
Lemma scan_of_NULL_is_refused :
  StdSQL.assign_columns ["id"; "name"] 0 [VInt64 5; VNil] (Next_args Scenario.dest)
                        [[VNil; VNil]]
  = ([[VInt64 5; VNil]],
     Some (StdSQL.errScanColumn 1 ["id"; "name"] StdSQL.errUnsupportedNil)).
Proof. by vm_compute. Qed.

(** ** The scenario, run *)
Section ScenarioRuns.
Let V := StdSQL.serve Scenario.srv.

Example Connect_reachable :
  result V (Connect {| dsn := Scenario.good_dsn |} Background) Scenario.start
  = (Some {| db := Some 0 |}, None)
  /\ calls V (Connect {| dsn := Scenario.good_dsn |} Background) Scenario.start
     = [sql_Open "mysql" Scenario.good_dsn; DB_PingContext (Some 0) Background].
Proof. by vm_compute. Qed.

Example Connect_unreachable :
  result V (Connect {| dsn := Scenario.down_dsn |} Background) Scenario.start
  = (None, Some (fmt_Errorf_w "failed to ping mysql: " StdSQL.errBadConn))
  /\ calls V (Connect {| dsn := Scenario.down_dsn |} Background) Scenario.start
     = [sql_Open "mysql" Scenario.down_dsn; DB_PingContext (Some 0) Background;
        DB_Close (Some 0)]
  /\ StdSQL.open_pools
       (after V (Connect {| dsn := Scenario.down_dsn |} Background) Scenario.start) = [].
Proof. by vm_compute. Qed.

Example Connect_cancelled :
  result V (Connect {| dsn := Scenario.good_dsn |} (CallerCtx 1)) Scenario.start
  = (None, Some (fmt_Errorf_w "failed to ping mysql: " StdSQL.context_Canceled))
  /\ StdSQL.open_pools
       (after V (Connect {| dsn := Scenario.good_dsn |} (CallerCtx 1)) Scenario.start) = [].
Proof. by vm_compute. Qed.

Example Connect_malformed :
  run V (Connect {| dsn := "tcp(host" |} Background) Scenario.start
  = ((None, Some (fmt_Errorf_w "failed to open mysql: " StdSQL.errInvalidDSN)),
     Scenario.start).
Proof. by vm_compute. Qed.

Example Error_of_ping_failure :
  Error (fmt_Errorf_w "failed to ping mysql: " StdSQL.errBadConn)
  = "failed to ping mysql: driver: bad connection".
Proof. reflexivity. Qed.

Example Columns_of_the_query :
  result V (mysqlRows_Columns Scenario.the_rows) (Scenario.queried 5) = ["id"; "name"]
  /\ result V (mysqlRows_Columns Scenario.the_rows) (Scenario.queried 6) = ["id"; "name"].
Proof. by vm_compute. Qed.

Example Columns_after_Close :
  result V (_ ← mysqlRows_Close Scenario.the_rows; mysqlRows_Columns Scenario.the_rows)
         (Scenario.queried 5) = [].
Proof. by vm_compute. Qed.

Example Query_forwards_the_argument :
  calls V (mysqlStmt_Query Scenario.the_stmt [VInt64 5]) Scenario.prepared
  = [Stmt_QueryContext (Some 0) Background [AnyValue (VInt64 5)]].
Proof. by vm_compute. Qed.

Example Close_twice_then_Prepare :
  let c := {| db := Some 0 |} in
  let p := (e1 ← mysqlConn_Close c; e2 ← mysqlConn_Close c;
            '(_, e3) ← mysqlConn_Prepare c Scenario.select_by_id; Ret [e1; e2; e3]) in
  result V p Scenario.prepared = [None; None; Some StdSQL.errDBClosed]
  /\ calls V p Scenario.prepared
     = [DB_Close (Some 0); DB_Close (Some 0);
        DB_PrepareContext (Some 0) Background Scenario.select_by_id].
Proof. by vm_compute. Qed.

Example Commit_then_Rollback :
  let p := (e1 ← mysqlTx_Commit Scenario.the_tx; e2 ← mysqlTx_Rollback Scenario.the_tx;
            Ret [e1; e2]) in
  result V p Scenario.in_tx = [None; Some StdSQL.ErrTxDone]
  /\ calls V p Scenario.in_tx = [Tx_Commit (Some 0); Tx_Rollback (Some 0)].
Proof. by vm_compute. Qed.
End ScenarioRuns.

(** * More of the adapter *)

(** ** What the wrappers return *)

(** X1.  On the ping-failure path the answer of [db.Close()] is dropped:
    two vendors that differ only in how they answer [Close] give [Connect]
    the same result and the same calls. *)
Theorem Connect_discards_the_Close_answer {W : Type} (V V' : vendor W)
        (c : Connector) (ctx : Context) (w : W) :
  (forall (k : vendor_call) (w0 : W), (forall d, k <> DB_Close d) -> V' k w0 = V k w0) ->
  result V' (Connect c ctx) w = result V (Connect c ctx) w
  /\ calls V' (Connect c ctx) w = calls V (Connect c ctx) w.
Proof.
  intros Hagree. unfold result. cbn.
  rewrite (Hagree (sql_Open "mysql" (dsn c)) w) by done.
  destruct (V (sql_Open "mysql" (dsn c)) w) as [[p [e |]] w1]; cbn; [done |].
  rewrite (Hagree (DB_PingContext p ctx) w1) by done.
  destruct (V (DB_PingContext p ctx) w1) as [[e |] w2]; cbn; [| done].
  by destruct (V' (DB_Close p) w2), (V (DB_Close p) w2).
Qed.

Lemma Connect_discards_the_Close_answer_witness :
  result Deployment.close_fails (Connect {| dsn := Scenario.down_dsn |} Background)
         Scenario.start
  = result (StdSQL.serve Scenario.srv) (Connect {| dsn := Scenario.down_dsn |} Background)
           Scenario.start
  /\ calls Deployment.close_fails (Connect {| dsn := Scenario.down_dsn |} Background)
           Scenario.start
     = calls (StdSQL.serve Scenario.srv) (Connect {| dsn := Scenario.down_dsn |} Background)
             Scenario.start.
Proof.
  apply Connect_discards_the_Close_answer.
  intros k w0 Hk. destruct k; try reflexivity.
  exfalso. by apply (Hk db0).
Defined.

(** X2.  [Prepare], [Begin] and [Query] return a wrapper or an error,
    never both and never neither; the error is the vendor's error itself,
    with no prefix added; the wrapper holds the pointer the vendor
    returned, and a pointer that came together with an error is dropped. *)
Theorem wrappers_return_handle_or_error {W : Type} (V : vendor W) (w : W)
        (c : mysqlConn) (query : string) (s : mysqlStmt) (args : list Value) :
  let prepared := fst (V (DB_PrepareContext (db c) Background query) w) in
  let begun := fst (V (DB_BeginTx (db c) Background None) w) in
  let queried := fst (V (Stmt_QueryContext (stmt s) Background (ToNamedValues args)) w) in
  (snd (result V (mysqlConn_Prepare c query) w) = snd prepared
   /\ fst (result V (mysqlConn_Prepare c query) w)
      = match snd prepared with
        | Some _ => None
        | None => Some {| stmt := fst prepared |}
        end)
  /\ (snd (result V (mysqlConn_Begin c) w) = snd begun
      /\ fst (result V (mysqlConn_Begin c) w)
         = match snd begun with
           | Some _ => None
           | None => Some {| tx := fst begun |}
           end)
  /\ (snd (result V (mysqlStmt_Query s args) w) = snd queried
      /\ fst (result V (mysqlStmt_Query s args) w)
         = match snd queried with
           | Some _ => None
           | None => Some {| rows := fst queried |}
           end).
Proof.
  intros prepared begun queried. subst prepared begun queried. unfold result.
  rewrite (run_invoke V (M_Prepare c query)), (run_invoke V (M_Begin c)),
    (run_invoke V (M_Query s args)). cbn.
  destruct (V (DB_PrepareContext (db c) Background query) w) as [[p1 [e1 |]] w1];
    destruct (V (DB_BeginTx (db c) Background None) w) as [[p2 [e2 |]] w2];
    destruct (V (Stmt_QueryContext (stmt s) Background (ToNamedValues args)) w)
      as [[p3 [e3 |]] w3]; by cbn.
Qed.


(** X4.  From one wrapper to the next the vendor's pointers are passed on
    untouched: a connection that [Connect] returns prepares, begins and
    closes on the pool [sql.Open] returned; a statement of [Prepare]
    executes, queries and closes on the statement the vendor prepared; a
    transaction of [Begin] commits and rolls back on the vendor's
    transaction; a cursor of [Query] reads columns, scans and closes on the
    vendor's rows.  This holds in whatever state the later call is made. *)
Theorem wrappers_pass_vendor_pointers_on {W : Type} (V : vendor W) (w w' : W)
        (c : Connector) (ctx : Context) (conn : mysqlConn) (query : string)
        (s : mysqlStmt) (args : list Value) (dest : slice) :
  match fst (result V (Connect c ctx) w) with
  | Some conn' =>
      let p := fst (fst (V (sql_Open "mysql" (dsn c)) w)) in
      calls V (mysqlConn_Prepare conn' query) w' = [DB_PrepareContext p Background query]
      /\ calls V (mysqlConn_Begin conn') w' = [DB_BeginTx p Background None]
      /\ calls V (mysqlConn_Close conn') w' = [DB_Close p]
  | None => True
  end
  /\ match fst (result V (mysqlConn_Prepare conn query) w) with
     | Some s' =>
         let p := fst (fst (V (DB_PrepareContext (db conn) Background query) w)) in
         calls V (mysqlStmt_Exec s' args) w'
         = [Stmt_ExecContext p Background (ToNamedValues args)]
         /\ calls V (mysqlStmt_Query s' args) w'
            = [Stmt_QueryContext p Background (ToNamedValues args)]
         /\ calls V (mysqlStmt_Close s') w' = [Stmt_Close p]
     | None => True
     end
  /\ match fst (result V (mysqlConn_Begin conn) w) with
     | Some t' =>
         let p := fst (fst (V (DB_BeginTx (db conn) Background None) w)) in
         calls V (mysqlTx_Commit t') w' = [Tx_Commit p]
         /\ calls V (mysqlTx_Rollback t') w' = [Tx_Rollback p]
     | None => True
     end
  /\ match fst (result V (mysqlStmt_Query s args) w) with
     | Some r' =>
         let p := fst (fst (V (Stmt_QueryContext (stmt s) Background
                                                 (ToNamedValues args)) w)) in
         calls V (mysqlRows_Columns r') w' = [Rows_Columns p]
         /\ calls V (mysqlRows_Next r' dest) w' = [Rows_Scan p (Next_args dest)]
         /\ calls V (mysqlRows_Close r') w' = [Rows_Close p]
     | None => True
     end.
Proof.
  repeat split.
  - destruct (snd (fst (V (sql_Open "mysql" (dsn c)) w))) as [e |] eqn:Ho.
    + unfold result. by rewrite (proj1 (Connect_open_fails V c ctx w e Ho)).
    + destruct (fst (V (DB_PingContext (fst (fst (V (sql_Open "mysql" (dsn c)) w))) ctx)
                       (snd (V (sql_Open "mysql" (dsn c)) w)))) as [e |] eqn:Hp.
      * unfold result. by rewrite (proj1 (Connect_ping_fails V c ctx w e Ho Hp)).
      * unfold result. rewrite (proj1 (Connect_succeeds V c ctx w Ho Hp)). cbn -[calls].
        repeat split;
          [apply (calls_invoke V (M_Prepare {| db := _ |} query)) | apply (calls_invoke V (M_Begin {| db := _ |}))
           | apply (calls_invoke V (M_ConnClose {| db := _ |}))].
  - unfold result. rewrite (run_invoke V (M_Prepare conn query)). cbn -[calls].
    destruct (V (DB_PrepareContext (db conn) Background query) w) as [[p [e |]] w1];
      cbn -[calls]; [done |].
    repeat split;
      [apply (calls_invoke V (M_Exec {| stmt := _ |} args)) | apply (calls_invoke V (M_Query {| stmt := _ |} args))
       | apply (calls_invoke V (M_StmtClose {| stmt := _ |}))].
  - unfold result. rewrite (run_invoke V (M_Begin conn)). cbn -[calls].
    destruct (V (DB_BeginTx (db conn) Background None) w) as [[p [e |]] w1];
      cbn -[calls]; [done |].
    split; [apply (calls_invoke V (M_Commit {| tx := _ |})) | apply (calls_invoke V (M_Rollback {| tx := _ |}))].
  - unfold result. rewrite (run_invoke V (M_Query s args)). cbn -[calls].
    destruct (V (Stmt_QueryContext (stmt s) Background (ToNamedValues args)) w)
      as [[p [e |]] w1]; cbn -[calls]; [done |].
    repeat split;
      [apply (calls_invoke V (M_Columns {| rows := _ |})) | apply (calls_invoke V (M_Next {| rows := _ |} dest))
       | apply (calls_invoke V (M_RowsClose {| rows := _ |}))].
Qed.

(** ** The argument list of [Next] *)

(** X5.  No two entries of the argument list of [Next] point to the same
    slot, every entry points into the window of [dest], an empty [dest]
    gives an empty list, and the lists of two slices over windows of one
    array that do not overlap share no pointer. *)
Theorem Next_args_do_not_alias :
  (forall dest : slice, NoDup (Next_args dest))
  /\ (forall (dest : slice) (a : any),
         a ∈ Next_args dest ->
         exists i : nat, i < s_len dest /\ a = AnyPtr (elem_addr dest i))
  /\ (forall array off : nat, Next_args (Slice array off 0) = [])
  /\ (forall (array off1 len1 off2 len2 : nat) (a : any),
         off1 + len1 <= off2 ->
         a ∈ Next_args (Slice array off1 len1) ->
         a ∉ Next_args (Slice array off2 len2)).
Proof.
  assert (forall (dest : slice) (a : any),
             a ∈ Next_args dest ->
             exists i : nat, i < s_len dest /\ a = AnyPtr (elem_addr dest i)) as Hin.
  { intros dest a. rewrite Next_args_pointers.
    intros (i & -> & Hi)%list_elem_of_fmap. apply elem_of_seq in Hi.
    exists i. split; [lia | done]. }
  split; [| split; [exact Hin | split; [done |]]].
  - intros dest. rewrite Next_args_pointers.
    apply NoDup_fmap_2; [| apply NoDup_seq].
    intros i j Hij. unfold elem_addr in Hij. injection Hij. lia.
  - intros array off1 len1 off2 len2 a Hsep H1 H2.
    apply Hin in H1 as (i & Hi & ->). apply Hin in H2 as (j & Hj & Hij).
    unfold elem_addr in Hij. cbn in *. injection Hij. lia.
Qed.

Lemma Next_args_do_not_alias_witness :
  AnyPtr (Cell 0 1) ∉ Next_args (Slice 0 2 3).
Proof.
  apply (proj2 (proj2 (proj2 Next_args_do_not_alias)) 0 0 2 2 3 (AnyPtr (Cell 0 1))).
  - lia.
  - apply list_elem_of_In. vm_compute. auto.
Defined.

(** ** Against [database/sql] *)

Lemma deref_Some {A : Type} (tbl : list A) (p : pointer) (x : A) :
  StdSQL.deref tbl p = Some x -> exists a, p = Some a /\ tbl !! a = Some x /\ a < length tbl.
Proof.
  destruct p as [a |]; cbn; [| done]. intros Ha. exists a.
  split; [done |]. split; [done |]. by eapply lookup_lt_Some.
Qed.

Lemma rows_Scan_keeps_tables (p : sql_Rows) (dest : list any) (w : StdSQL.world) :
  let w' := snd (StdSQL.rows_Scan p dest w) in
  StdSQL.cursors w' = StdSQL.cursors w /\ StdSQL.dbs w' = StdSQL.dbs w
  /\ StdSQL.stmts w' = StdSQL.stmts w /\ StdSQL.txs w' = StdSQL.txs w.
Proof.
  unfold StdSQL.rows_Scan.
  destruct (StdSQL.deref (StdSQL.cursors w) p) as [st |]; [| done].
  destruct (StdSQL.rs_closed st); [done |].
  destruct (StdSQL.rs_lastcols st) as [cols |]; [| done].
  destruct (negb (bool_decide (length dest = length cols))); [done |].
  by destruct (StdSQL.assign_columns (StdSQL.rs_columns st) 0 cols dest (StdSQL.heap w)).
Qed.

Lemma Next_times_after {W : Type} (V : vendor W) (r : mysqlRows) (dest : slice)
      (n : nat) (w : W) :
  after V (Next_times r dest (S n)) w
  = after V (Next_times r dest n) (after V (mysqlRows_Next r dest) w).
Proof.
  unfold after. cbn [Next_times]. rewrite run_bind, run_bind. by cbn.
Qed.

(** X6.  In no state does [Next] move a cursor: after any number of [Next]
    calls on any cursor the vendor's cursors are exactly as before, none
    advanced and none closed, and so are its pools, statements and
    transactions.  Only the destination memory can change. *)
Theorem Next_never_moves_a_cursor (srv : StdSQL.server) (r : mysqlRows) (dest : slice)
        (n : nat) (w : StdSQL.world) :
  let w' := after (StdSQL.serve srv) (Next_times r dest n) w in
  StdSQL.cursors w' = StdSQL.cursors w /\ StdSQL.dbs w' = StdSQL.dbs w
  /\ StdSQL.stmts w' = StdSQL.stmts w /\ StdSQL.txs w' = StdSQL.txs w.
Proof.
  revert w. induction n as [| n IH]; intros w; [done |].
  cbn zeta. rewrite Next_times_after.
  destruct (IH (after (StdSQL.serve srv) (mysqlRows_Next r dest) w)) as (-> & -> & -> & ->).
  unfold after. rewrite (run_invoke _ (M_Next r dest)).
  apply rows_Scan_keeps_tables.
Qed.


(** X8.  The adapter puts no guard of its own behind [Close]; what a later
    call returns is the vendor's error, unwrapped.  On a closed connection
    [Prepare] and [Begin] return "sql: database is closed" and no wrapper; on
    a closed statement [Exec] and [Query] return "sql: statement is closed";
    on a closed cursor [Next] returns "sql: Rows are closed" and writes
    nothing, and [Columns] is empty. *)
Theorem use_after_Close (srv : StdSQL.server) (w : StdSQL.world) :
  let V := StdSQL.serve srv in
  (forall (c : mysqlConn) (d : StdSQL.DBState) (query : string),
      StdSQL.deref (StdSQL.dbs w) (db c) = Some d ->
      let w1 := after V (mysqlConn_Close c) w in
      run V (mysqlConn_Prepare c query) w1 = ((None, Some StdSQL.errDBClosed), w1)
      /\ run V (mysqlConn_Begin c) w1 = ((None, Some StdSQL.errDBClosed), w1))
  /\ (forall (s : mysqlStmt) (st : StdSQL.StmtState) (args : list Value),
         StdSQL.deref (StdSQL.stmts w) (stmt s) = Some st ->
         let w1 := after V (mysqlStmt_Close s) w in
         run V (mysqlStmt_Exec s args) w1 = ((None, Some StdSQL.errStmtClosed), w1)
         /\ run V (mysqlStmt_Query s args) w1 = ((None, Some StdSQL.errStmtClosed), w1))
  /\ (forall (r : mysqlRows) (st : StdSQL.RowsState) (dest : slice),
         StdSQL.deref (StdSQL.cursors w) (rows r) = Some st ->
         let w1 := after V (mysqlRows_Close r) w in
         run V (mysqlRows_Next r dest) w1 = (Some StdSQL.errRowsClosed, w1)
         /\ run V (mysqlRows_Columns r) w1 = ([], w1)).
Proof.
  intros V. subst V. split; [| split].
  - intros c d query (a & Hc & Hd & Ha)%deref_Some w1. subst w1. unfold after.
    rewrite (run_invoke _ (M_ConnClose c)), (run_invoke _ (M_Prepare c query)),
      (run_invoke _ (M_Begin c)). cbn.
    unfold StdSQL.db_Close, StdSQL.db_PrepareContext, StdSQL.db_BeginTx.
    rewrite Hc. cbn. rewrite Hd. cbn. by rewrite list_lookup_insert_eq.
  - intros s st args (a & Hc & Hd & Ha)%deref_Some w1. subst w1. unfold after.
    rewrite (run_invoke _ (M_StmtClose s)), (run_invoke _ (M_Exec s args)),
      (run_invoke _ (M_Query s args)). cbn.
    unfold StdSQL.stmt_Close, StdSQL.stmt_ExecContext, StdSQL.stmt_QueryContext,
      StdSQL.stmt_ready.
    rewrite Hc. cbn. rewrite Hd. cbn. by rewrite list_lookup_insert_eq.
  - intros r st dest (a & Hc & Hd & Ha)%deref_Some w1. subst w1. unfold after.
    rewrite (run_invoke _ (M_RowsClose r)), (run_invoke _ (M_Next r dest)),
      (run_invoke _ (M_Columns r)). cbn.
    unfold StdSQL.rows_Close, StdSQL.rows_Scan, StdSQL.rows_Columns.
    rewrite Hc. cbn. rewrite Hd. cbn. by rewrite list_lookup_insert_eq.
Qed.

Lemma use_after_Close_witness :
  let V := StdSQL.serve Scenario.srv in
  let w := Scenario.queried 5 in
  result V (mysqlConn_Prepare {| db := Some 0 |} Scenario.select_by_id)
         (after V (mysqlConn_Close {| db := Some 0 |}) w)
  = (None, Some StdSQL.errDBClosed)
  /\ result V (mysqlStmt_Exec Scenario.the_stmt [VInt64 5])
            (after V (mysqlStmt_Close Scenario.the_stmt) w)
     = (None, Some StdSQL.errStmtClosed)
  /\ result V (mysqlRows_Next Scenario.the_rows Scenario.dest)
            (after V (mysqlRows_Close Scenario.the_rows) w)
     = Some StdSQL.errRowsClosed.
Proof.
  intros V w. subst V.
  destruct (use_after_Close Scenario.srv w) as (Hconn & Hstmt & Hrows). subst w.
  unfold result. split; [| split].
  - rewrite (proj1 (Hconn {| db := Some 0 |}
                          {| StdSQL.db_dsn := Scenario.good_dsn; StdSQL.db_sessions := 1;
                             StdSQL.db_closed := false |}
                          Scenario.select_by_id eq_refl)).
    reflexivity.
  - rewrite (proj1 (Hstmt Scenario.the_stmt
                          {| StdSQL.st_db := 0; StdSQL.st_query := Scenario.select_by_id;
                             StdSQL.st_closed := false |}
                          [VInt64 5] eq_refl)).
    reflexivity.
  - rewrite (proj1 (Hrows Scenario.the_rows
                          {| StdSQL.rs_columns := ["id"; "name"];
                             StdSQL.rs_pending := [[VInt64 5; VString "a"]];
                             StdSQL.rs_lastcols := None; StdSQL.rs_closed := false |}
                          Scenario.dest eq_refl)).
    reflexivity.
Defined.

Lemma Connect_StdSQL_success (srv : StdSQL.server) (c : Connector) (ctx : Context)
      (w : StdSQL.world) (conn : mysqlConn) :
  result (StdSQL.serve srv) (Connect c ctx) w = (Some conn, None) ->
  db conn = Some (length (StdSQL.dbs w))
  /\ after (StdSQL.serve srv) (Connect c ctx) w
     = StdSQL.set_dbs w (StdSQL.dbs w ++ [pool_of c 1 false])
  /\ StdSQL.accepts srv (dsn c) = true.
Proof.
  unfold result, after. rewrite Connect_StdSQL.
  destruct (StdSQL.dsn_wellformed srv (dsn c)); cbn; [| done].
  destruct (StdSQL.done srv ctx); cbn; [done |].
  destruct (StdSQL.accepts srv (dsn c)); cbn; [| done].
  by intros [= <-].
Qed.

(** X9.  [Connect] and [Close] undo each other: closing the connection a
    successful [Connect] returned reports no error and leaves the unclosed
    pools and the held sessions as they were before the [Connect]. *)
Theorem Connect_then_Close (srv : StdSQL.server) (c : Connector) (ctx : Context)
        (w : StdSQL.world) (conn : mysqlConn) :
  let V := StdSQL.serve srv in
  result V (Connect c ctx) w = (Some conn, None) ->
  let w1 := after V (Connect c ctx) w in
  result V (mysqlConn_Close conn) w1 = None
  /\ StdSQL.open_pools (after V (mysqlConn_Close conn) w1) = StdSQL.open_pools w
  /\ StdSQL.sessions (after V (mysqlConn_Close conn) w1) = StdSQL.sessions w.
Proof.
  intros V Hok w1. subst V w1.
  destruct (Connect_StdSQL_success srv c ctx w conn Hok) as (Hconn & -> & _).
  unfold result, after. rewrite (run_invoke _ (M_ConnClose conn)). cbn.
  unfold StdSQL.db_Close. rewrite Hconn. cbn. rewrite lookup_newest. cbn.
  rewrite insert_newest.
  unfold StdSQL.open_pools, StdSQL.sessions. cbn.
  rewrite filter_app, fmap_app, sum_list_with_app. cbn.
  rewrite app_nil_r. split; [done |]. split; [done | lia].
Qed.

Lemma Connect_then_Close_witness :
  let V := StdSQL.serve Scenario.srv in
  let w1 := after V (Connect {| dsn := Scenario.good_dsn |} Background) Scenario.start in
  result V (mysqlConn_Close {| db := Some 0 |}) w1 = None
  /\ StdSQL.open_pools (after V (mysqlConn_Close {| db := Some 0 |}) w1)
     = StdSQL.open_pools Scenario.start
  /\ StdSQL.sessions (after V (mysqlConn_Close {| db := Some 0 |}) w1)
     = StdSQL.sessions Scenario.start.
Proof.
  apply (Connect_then_Close Scenario.srv {| dsn := Scenario.good_dsn |} Background
                            Scenario.start {| db := Some 0 |}).
  by vm_compute.
Defined.

(** X10.  A connector can be used again: two successful [Connect] calls
    return connections over different pools, and closing the first leaves
    the second one working, the only unclosed pool added. *)
Theorem Connector_can_be_reused (srv : StdSQL.server) (c : Connector) (ctx ctx' : Context)
        (w : StdSQL.world) (c1 c2 : mysqlConn) :
  let V := StdSQL.serve srv in
  result V (Connect c ctx) w = (Some c1, None) ->
  let w1 := after V (Connect c ctx) w in
  result V (Connect c ctx') w1 = (Some c2, None) ->
  let w2 := after V (Connect c ctx') w1 in
  let w3 := after V (mysqlConn_Close c1) w2 in
  db c1 <> db c2
  /\ result V (mysqlConn_Close c1) w2 = None
  /\ StdSQL.open_pools w3 = StdSQL.open_pools w ++ [pool_of c 1 false]
  /\ result V (mysqlConn_Begin c2) w3 = (Some {| tx := Some (length (StdSQL.txs w)) |}, None).
Proof.
  intros V H1 w1 H2 w2 w3. subst V w3 w2 w1.
  destruct (Connect_StdSQL_success srv c ctx w c1 H1) as (Hc1 & Hw1 & Hacc).
  rewrite Hw1 in *.
  destruct (Connect_StdSQL_success srv c ctx' _ c2 H2) as (Hc2 & -> & _).
  cbn [StdSQL.dbs StdSQL.set_dbs] in *. rewrite length_app in Hc2. cbn [length] in Hc2.
  split; [rewrite Hc1, Hc2; intros [=]; lia |].
  unfold result, after.
  rewrite (run_invoke _ (M_ConnClose c1)), (run_invoke _ (M_Begin c2)). cbn.
  unfold StdSQL.db_Close. rewrite Hc1. cbn.
  rewrite lookup_app_l by (rewrite length_app; cbn; lia). rewrite lookup_newest. cbn.
  rewrite insert_app_l by (rewrite length_app; cbn; lia). rewrite insert_newest.
  split; [done |]. split.
  - unfold StdSQL.open_pools. cbn. rewrite !filter_app. cbn. by rewrite app_nil_r.
  - unfold StdSQL.db_BeginTx. rewrite Hc2. cbn.
    assert (length (StdSQL.dbs w) + 1 = length (StdSQL.dbs w ++ [pool_of c 0 true])) as ->.
    { rewrite length_app. cbn. lia. }
    rewrite lookup_newest. cbn. unfold StdSQL.conn. cbn. by rewrite Hacc.
Qed.

Lemma Connector_can_be_reused_witness :
  let V := StdSQL.serve Scenario.srv in
  let c := {| dsn := Scenario.good_dsn |} in
  let w2 := after V (Connect c Background) (after V (Connect c Background) Scenario.start) in
  Some 0 <> Some 1
  /\ result V (mysqlConn_Close {| db := Some 0 |}) w2 = None
  /\ StdSQL.open_pools (after V (mysqlConn_Close {| db := Some 0 |}) w2)
     = StdSQL.open_pools Scenario.start ++ [pool_of c 1 false]
  /\ result V (mysqlConn_Begin {| db := Some 1 |})
            (after V (mysqlConn_Close {| db := Some 0 |}) w2)
     = (Some {| tx := Some 0 |}, None).
Proof.
  apply (Connector_can_be_reused Scenario.srv {| dsn := Scenario.good_dsn |}
                                 Background Background Scenario.start
                                 {| db := Some 0 |} {| db := Some 1 |}).
  - by vm_compute.
  - by vm_compute.
Defined.

(** X16.  A destination of the wrong size is refused whole: on a cursor
    with a row prepared, [Next] into a [dest] whose length is not the number
    of columns returns the vendor's arity error naming both numbers, and
    nothing is written. *)
Theorem Next_with_wrong_arity (srv : StdSQL.server) (r : mysqlRows) (dest : slice)
        (w : StdSQL.world) (st : StdSQL.RowsState) (cols : list Value) :
  StdSQL.deref (StdSQL.cursors w) (rows r) = Some st ->
  StdSQL.rs_closed st = false ->
  StdSQL.rs_lastcols st = Some cols ->
  s_len dest <> length cols ->
  run (StdSQL.serve srv) (mysqlRows_Next r dest) w
  = (Some (StdSQL.errScanArity (length cols) (s_len dest)), w).
Proof.
  intros Hst Hopen Hrow Hne. rewrite (run_invoke _ (M_Next r dest)). cbn.
  unfold StdSQL.rows_Scan. rewrite Hst, Hopen, Hrow.
  assert (length (Next_args dest) = s_len dest) as ->.
  { by rewrite Next_args_pointers, length_fmap, length_seq. }
  by rewrite bool_decide_eq_false_2.
Qed.

Lemma Next_with_wrong_arity_witness :
  run (StdSQL.serve Scenario.srv) (mysqlRows_Next Scenario.the_rows (Slice 0 0 1))
      Scenario.row_ready
  = (Some (errors_New "sql: expected 2 destination arguments in Scan, not 1"),
     Scenario.row_ready).
Proof.
  apply (Next_with_wrong_arity Scenario.srv Scenario.the_rows (Slice 0 0 1)
                               Scenario.row_ready
                               {| StdSQL.rs_columns := ["id"; "name"]; StdSQL.rs_pending := [];
                                  StdSQL.rs_lastcols := Some [VInt64 5; VString "a"];
                                  StdSQL.rs_closed := false |}
                               [VInt64 5; VString "a"]).
  - by vm_compute.
  - reflexivity.
  - reflexivity.
  - cbn. lia.
Defined.

(** * The loader *)

(** X11.  The name of a loader is the one set last; a loader whose name was
    never set keeps the name it had. *)
Theorem Name_is_the_last_SetName (a : MysqlLoader) (names : list string) :
  Name (foldl SetName a names) = default (Name a) (last names).
Proof.
  revert a. induction names as [| n names IH]; intros a; [done |].
  cbn [foldl]. rewrite IH. destruct names as [| n' names]; [done |].
  rewrite last_cons_cons. destruct (last (n' :: names)) eqn:Hlast; [done |].
  by apply last_None in Hlast.
Qed.


(** X13.  With a configuration in second place [Init] builds the DSN,
    allocates the database wrapper, registers a connector for the driver
    name "mysql", creates the dialect, hands both to the wrapper and calls
    [Install] with the complete argument list, in this order.  If [Install]
    fails, its error is returned with no library and [db.Connect()] is never
    called; otherwise [db.Connect()] is the last call and [Init] returns the
    wrapper and no error, whatever [db.Connect()] answered. *)
Theorem Init_installs_then_connects {Config Other W : Type}
        (L : forall c : Loader.lib_call Config Other, W -> Loader.ans c * W)
        (l : MysqlLoader) (args : list (goarg Config Other)) (config : Config) (w : W) :
  args !! 1 = Some (ArgConfig config) ->
  let built := L (Loader.libsql_BuildDSN config) w in
  let alloc := L Loader.new_SQLDatabase (snd built) in
  let conn := L (Loader.libsql_NewConnector "mysql" {| dsn := fst built |}) (snd alloc) in
  let dial := L Loader.mysqldialect_New (snd conn) in
  let set := L (Loader.SQLDatabase_SetBunDB (fst alloc) (fst conn) (fst dial)) (snd dial) in
  let inst := L (Loader.SQLDatabase_Install (fst alloc) args) (snd set) in
  let setup := [Loader.libsql_BuildDSN config; Loader.new_SQLDatabase;
                Loader.libsql_NewConnector "mysql" {| dsn := fst built |};
                Loader.mysqldialect_New;
                Loader.SQLDatabase_SetBunDB (fst alloc) (fst conn) (fst dial);
                Loader.SQLDatabase_Install (fst alloc) args] in
  match fst inst with
  | Some err =>
      tree_run L (Loader.Init l args) w = (Returned (None, Some err), snd inst)
      /\ tree_calls L (Loader.Init l args) w = setup
  | None =>
      tree_run L (Loader.Init l args) w
      = (Returned (Some (fst alloc), None),
         snd (L (Loader.SQLDatabase_Connect (fst alloc)) (snd inst)))
      /\ tree_calls L (Loader.Init l args) w
         = setup ++ [Loader.SQLDatabase_Connect (fst alloc)]
  end.
Proof.
  intros Harg built alloc conn dial set inst setup.
  subst setup inst set dial conn alloc built. unfold Loader.Init. rewrite Harg. cbn.
  destruct (L (Loader.libsql_BuildDSN config) w) as [x1 w1]. cbn.
  destruct (L Loader.new_SQLDatabase w1) as [x2 w2]. cbn.
  destruct (L (Loader.libsql_NewConnector "mysql" {| dsn := x1 |}) w2) as [x3 w3]. cbn.
  destruct (L Loader.mysqldialect_New w3) as [x4 w4]. cbn.
  destruct (L (Loader.SQLDatabase_SetBunDB x2 x3 x4) w4) as [x5 w5]. cbn.
  destruct (L (Loader.SQLDatabase_Install x2 args) w5) as [[e |] w6]; cbn; [done |].
  by destruct (L (Loader.SQLDatabase_Connect x2) w6) as [x7 w7].
Qed.

Lemma Init_installs_then_connects_witness :
  tree_run Deployment.bun (Loader.Init Deployment.loader Deployment.good_args) 0
  = (Returned (Some 0, None), 3)
  /\ tree_calls Deployment.bun (Loader.Init Deployment.loader Deployment.good_args) 0
     = [Loader.libsql_BuildDSN "host"; Loader.new_SQLDatabase;
        Loader.libsql_NewConnector "mysql" {| dsn := "user:pass@tcp(host:3306)/db" |};
        Loader.mysqldialect_New; Loader.SQLDatabase_SetBunDB 0 1 2;
        Loader.SQLDatabase_Install 0 Deployment.good_args;
        Loader.SQLDatabase_Connect 0].
Proof.
  apply (Init_installs_then_connects Deployment.bun Deployment.loader Deployment.good_args
                                     "host" 0).
  reflexivity.
Defined.

(** X14.  The loader of [loader.go] does the same over gorm: DSN, wrapper,
    [mysql.Open] on that DSN, [SetDialect], [Install] with all arguments;
    an [Install] error is returned and [db.Connect()] skipped, otherwise
    [db.Connect()] comes last and its answer does not reach the caller. *)
Theorem Gorm_Init_installs_then_connects {Config Other W : Type}
        (G : forall c : GormLoader.lib_call Config Other, W -> GormLoader.ans c * W)
        (l : MysqlLoader) (args : list (goarg Config Other)) (config : Config) (w : W) :
  args !! 1 = Some (ArgConfig config) ->
  let built := G (GormLoader.sql_BuildDSN config) w in
  let alloc := G GormLoader.new_SQLDatabase (snd built) in
  let dial := G (GormLoader.mysql_Open (fst built)) (snd alloc) in
  let set := G (GormLoader.SQLDatabase_SetDialect (fst alloc) (fst dial)) (snd dial) in
  let inst := G (GormLoader.SQLDatabase_Install (fst alloc) args) (snd set) in
  let setup := [GormLoader.sql_BuildDSN config; GormLoader.new_SQLDatabase;
                GormLoader.mysql_Open (fst built);
                GormLoader.SQLDatabase_SetDialect (fst alloc) (fst dial);
                GormLoader.SQLDatabase_Install (fst alloc) args] in
  match fst inst with
  | Some err =>
      tree_run G (GormLoader.Init l args) w = (Returned (None, Some err), snd inst)
      /\ tree_calls G (GormLoader.Init l args) w = setup
  | None =>
      tree_run G (GormLoader.Init l args) w
      = (Returned (Some (fst alloc), None),
         snd (G (GormLoader.SQLDatabase_Connect (fst alloc)) (snd inst)))
      /\ tree_calls G (GormLoader.Init l args) w
         = setup ++ [GormLoader.SQLDatabase_Connect (fst alloc)]
  end.
Proof.
  intros Harg built alloc dial set inst setup.
  subst setup inst set dial alloc built. unfold GormLoader.Init. rewrite Harg. cbn.
  destruct (G (GormLoader.sql_BuildDSN config) w) as [x1 w1]. cbn.
  destruct (G GormLoader.new_SQLDatabase w1) as [x2 w2]. cbn.
  destruct (G (GormLoader.mysql_Open x1) w2) as [x3 w3]. cbn.
  destruct (G (GormLoader.SQLDatabase_SetDialect x2 x3) w3) as [x4 w4]. cbn.
  destruct (G (GormLoader.SQLDatabase_Install x2 args) w4) as [[e |] w5]; cbn; [done |].
  by destruct (G (GormLoader.SQLDatabase_Connect x2) w5) as [x6 w6].
Qed.

Lemma Gorm_Init_installs_then_connects_witness :
  tree_run Deployment.gorm (GormLoader.Init Deployment.loader Deployment.refused_args) 0
  = (Returned (None, Some Deployment.install_failed), 2)
  /\ tree_calls Deployment.gorm (GormLoader.Init Deployment.loader Deployment.refused_args) 0
     = [GormLoader.sql_BuildDSN "host"; GormLoader.new_SQLDatabase;
        GormLoader.mysql_Open "user:pass@tcp(host:3306)/db";
        GormLoader.SQLDatabase_SetDialect 0 1;
        GormLoader.SQLDatabase_Install 0 Deployment.refused_args].
Proof.
  apply (Gorm_Init_installs_then_connects Deployment.gorm Deployment.loader
                                          Deployment.refused_args "host" 0).
  reflexivity.
Defined.

(** X15.  The one connector [Init] registers is for the driver name "mysql"
    and holds the string the DSN builder returned for the configuration; a
    [Connect] of that connector starts by opening the vendor client with
    exactly that driver name and that string. *)
Theorem Init_registers_the_built_DSN {Config Other W Wv : Type}
        (L : forall c : Loader.lib_call Config Other, W -> Loader.ans c * W)
        (V : vendor Wv) (l : MysqlLoader) (args : list (goarg Config Other))
        (config : Config) (w : W) (ctx : Context) (wv : Wv) :
  args !! 1 = Some (ArgConfig config) ->
  let built := fst (L (Loader.libsql_BuildDSN config) w) in
  Loader.registered (tree_calls L (Loader.Init l args) w) = [("mysql", {| dsn := built |})]
  /\ head (calls V (Connect {| dsn := built |} ctx) wv) = Some (sql_Open "mysql" built).
Proof.
  intros Harg built. subst built. split.
  - unfold Loader.Init. rewrite Harg. cbn.
    destruct (L (Loader.libsql_BuildDSN config) w) as [x1 w1]. cbn.
    destruct (L Loader.new_SQLDatabase w1) as [x2 w2]. cbn.
    destruct (L (Loader.libsql_NewConnector "mysql" {| dsn := x1 |}) w2) as [x3 w3]. cbn.
    destruct (L Loader.mysqldialect_New w3) as [x4 w4]. cbn.
    destruct (L (Loader.SQLDatabase_SetBunDB x2 x3 x4) w4) as [x5 w5]. cbn.
    destruct (L (Loader.SQLDatabase_Install x2 args) w5) as [[e |] w6]; cbn; [done |].
    by destruct (L (Loader.SQLDatabase_Connect x2) w6) as [x7 w7].
  - cbn. by destruct (V (sql_Open _ _) wv) as [[p [e |]] w1].
Qed.

Lemma Init_registers_the_built_DSN_witness :
  Loader.registered
    (tree_calls Deployment.bun (Loader.Init Deployment.loader Deployment.good_args) 0)
  = [("mysql", {| dsn := "user:pass@tcp(host:3306)/db" |})]
  /\ head (calls (StdSQL.serve Scenario.srv)
                 (Connect {| dsn := "user:pass@tcp(host:3306)/db" |} Background)
                 Scenario.start)
     = Some (sql_Open "mysql" "user:pass@tcp(host:3306)/db").
Proof.
  apply (Init_registers_the_built_DSN Deployment.bun (StdSQL.serve Scenario.srv)
                                      Deployment.loader Deployment.good_args "host" 0
                                      Background Scenario.start).
  reflexivity.
Defined.
